(** * The job-lifecycle coordinator of the LCA extension (service_worker.js)

    A shallow embedding of the background script: the job store kept under
    the [jobs] key of [chrome.storage.local], the storage helpers
    [saveJob], [updateJob] and [getJobById], and the coordinator operations
    [submitJob], [pollJobStatus], [getJobStatus], [cancelJob] and
    [getMockResponse].

    The script is asynchronous: every [await] is a point where another task
    may run.  The environment (clock, random source, HTTP responses) is
    passed in as arguments, the store is threaded explicitly, and the
    requests and timers a function issues are returned as a list of
    effects.  A poll is given both as one uninterrupted run
    ([pollJobStatus]) and split at its status request ([poll_begin],
    [poll_resume]) so that other operations can be interleaved while the
    request is in flight; a submission likewise ([submitJob], and
    [submit_begin], [submit_resume] around its POST).  Two step functions
    interleave them: [exec], in which a submission is one step and the
    poll loop it starts waits to be woken, and [step], in which a
    submission is in flight between its two halves and its first poll
    starts with the second half, as the call in [submitJob] does.

    Also embedded, for the properties of the second part: the message
    router ([handleMessage] and the [onMessage] listener), and from the
    pages that read the store the list, the result view and the relative
    dates of the jobs page ([loadJobs], [viewJob], [formatDate] of
    jobs.js) and the popup's own status polling ([Popup.pollJobStatus]).
    What these pages write to the DOM is not modelled.

    Taken as given: [chrome.storage.local] does not fail; the read and the
    write inside one storage helper are not separated by another task,
    nor are the storage calls an operation makes between two HTTP
    requests; in [exec], and only there, a submission runs from [saveJob]
    to its last [updateJob] without another task in between; the backend
    answers within its documented types (a status is a string, a result is
    an object). *)

From Stdlib Require Import QArith Qpower Ascii DecimalString DecimalN.
From stdpp Require Import base decidable option list strings sorting.

Local Open Scope string_scope.
Local Open Scope list_scope.

(** ** JSON values *)

(** Numbers are exact rationals: every number literal of the script
    ([123.45], [15.5], ...) is a decimal fraction, read here as the
    fraction it denotes ([123.45] is [12345 # 100]). *)
#[warnings="-register-all"]
Inductive Json : Type :=
| JNull
| JBool (b : bool)
| JNum (q : Q)
| JStr (s : string)
| JArr (items : list Json)
| JObj (fields : list (string * Json)).

(** A JS object literal: its own properties in insertion order. *)
Definition Obj : Type := list (string * Json).

(** [o[k]]: [None] is [undefined]. *)
Fixpoint obj_get (k : string) (o : Obj) : option Json :=
  match o with
  | [] => None
  | (k', v) :: o' => if decide (k' = k) then Some v else obj_get k o'
  end.

(** [o[k] = v]: an existing property keeps its position, a new one is
    appended. *)
Fixpoint obj_set (k : string) (v : Json) (o : Obj) : Obj :=
  match o with
  | [] => [(k, v)]
  | (k', v') :: o' =>
      if decide (k' = k) then (k', v) :: o' else (k', v') :: obj_set k v o'
  end.

(** ** Environment *)

(** [Date.now()]: milliseconds since the epoch.  [new Date().toISOString()]
    renders the same instant, so the time stamps of a record are kept as
    the instant itself. *)
Definition Time : Type := N.
Bind Scope N_scope with Time.

(** Number-to-string conversion of a non-negative integer, as done by
    ['job-' + Date.now()] and by template literals. *)
Definition dec (n : N) : string := NilEmpty.string_of_uint (N.to_uint n).

(** What [await fetch(...)] followed by [response.json()] can produce for a
    body of type [A]: the fetch promise rejects; or it resolves to a
    response with its [ok] flag, [status] and [statusText], whose [json()]
    either rejects (left, with the message) or yields the body. *)
Inductive Fetch (A : Type) : Type :=
| Rejected (message : string)
| Responded (ok : bool) (status : N) (statusText : string) (body : string + A).
Arguments Rejected {A} message.
Arguments Responded {A} ok status statusText body.

(** Body of [POST /lca/submit]. *)
Record SubmitData : Type := mkSubmitData { sub_job_id : option string }.

(** Body of [GET /lca/status/{id}].  [st_status] is whatever string the
    backend reports, not only the four documented ones. *)
Record StatusData : Type := mkStatusData {
  st_status : string;
  st_progress : option Json;
  st_error : option string
}.

(** [chrome.storage.local.get(['backendUrl', 'apiKey'])]. *)
Record Settings : Type := mkSettings {
  backendUrl : option string;
  apiKey : option string
}.

(** Truthiness of an optional string: [undefined] and [''] are falsy. *)
Definition truthy (s : option string) : option string :=
  match s with
  | Some "" => None
  | _ => s
  end.

(** [a || b] for an optional string [a] and a string [b]. *)
Definition or_else (a : option string) (b : string) : string :=
  default b (truthy a).

(** ** Job records *)

(** The job object, with the property names of the script. *)
Module Job.
Record t : Type := mk {
  id : string;
  url : option Json;
  payload : Obj;
  status : string;
  createdAt : Time;
  updatedAt : Time;
  retries : N;
  error : option string;
  result : option Obj;
  backendJobId : option string;
  progress : option Json
}.
End Job.
Abbreviation JobRecord := Job.t.

(** Property assignments [job.status = v], [job.error = v], ... *)
Definition set_status (v : string) (j : JobRecord) : JobRecord :=
  Job.mk (Job.id j) (Job.url j) (Job.payload j) v (Job.createdAt j)
    (Job.updatedAt j) (Job.retries j) (Job.error j) (Job.result j)
    (Job.backendJobId j) (Job.progress j).
Definition set_updatedAt (v : Time) (j : JobRecord) : JobRecord :=
  Job.mk (Job.id j) (Job.url j) (Job.payload j) (Job.status j)
    (Job.createdAt j) v (Job.retries j) (Job.error j) (Job.result j)
    (Job.backendJobId j) (Job.progress j).
Definition set_error (v : option string) (j : JobRecord) : JobRecord :=
  Job.mk (Job.id j) (Job.url j) (Job.payload j) (Job.status j)
    (Job.createdAt j) (Job.updatedAt j) (Job.retries j) v (Job.result j)
    (Job.backendJobId j) (Job.progress j).
Definition set_result (v : option Obj) (j : JobRecord) : JobRecord :=
  Job.mk (Job.id j) (Job.url j) (Job.payload j) (Job.status j)
    (Job.createdAt j) (Job.updatedAt j) (Job.retries j) (Job.error j) v
    (Job.backendJobId j) (Job.progress j).
Definition set_backendJobId (v : option string) (j : JobRecord) : JobRecord :=
  Job.mk (Job.id j) (Job.url j) (Job.payload j) (Job.status j)
    (Job.createdAt j) (Job.updatedAt j) (Job.retries j) (Job.error j)
    (Job.result j) v (Job.progress j).
Definition set_progress (v : option Json) (j : JobRecord) : JobRecord :=
  Job.mk (Job.id j) (Job.url j) (Job.payload j) (Job.status j)
    (Job.createdAt j) (Job.updatedAt j) (Job.retries j) (Job.error j)
    (Job.result j) (Job.backendJobId j) v.

(** ** Job storage helpers *)

(** The array stored under the [jobs] key.  Every reader destructures with
    [{ jobs = [] }], so a missing key and the empty array are the same. *)
Definition Store : Type := list JobRecord.

(** [jobs.push(job)] and write back. *)
Definition saveJob (jobs : Store) (job : JobRecord) : Store :=
  jobs ++ [job].

(** [jobs.findIndex(j => j.id === updatedJob.id)], then [jobs[index] =
    updatedJob] and write back, when the index is not [-1]. *)
Definition updateJob (jobs : Store) (updatedJob : JobRecord) : Store :=
  match list_find (λ j, Job.id j = Job.id updatedJob) jobs with
  | Some (index, _) => <[index := updatedJob]> jobs
  | None => jobs
  end.

(** [jobs.find(j => j.id === jobId)]. *)
Definition getJobById (jobs : Store) (jobId : string) : option JobRecord :=
  snd <$> list_find (λ j, Job.id j = jobId) jobs.

(** ** Configuration *)

Module CONFIG.
Definition MAX_RETRIES : nat := 3.
Definition POLL_INTERVAL_MS : Q := 2000.
Definition POLL_MAX_ATTEMPTS : nat := 60.
Definition BACKOFF_MULTIPLIER : Q := 1.5.
End CONFIG.

(** [Math.pow(b, n)] for a natural exponent.  On the rationals the power is
    exact; the script's doubles agree with it as long as the numerator
    [3^n] of [1.5^n] fits the 53-bit mantissa, that is for [n <= 33]. *)
Definition pow (b : Q) (n : nat) : Q := Qpower b (Z.of_nat n).

(** ** Effects *)

(** The arguments of one [pollJobStatus(jobId, backendUrl, apiKey,
    attempt)] call. *)
Record PollCall : Type := mkPollCall {
  pc_jobId : string;
  pc_backendUrl : string;
  pc_apiKey : string;
  pc_attempt : nat
}.

Inductive Request : Type :=
| PostSubmit (backendUrl apiKey : string) (body : Obj)
| GetStatus (backendUrl apiKey backendJobId : string)
| GetResult (backendUrl apiKey backendJobId : string).

(** What an operation asks of the outside world, in program order:
    an HTTP request, a [setTimeout] of a further poll, or the un-awaited
    [pollJobStatus] call made by [submitJob]. *)
Inductive Effect : Type :=
| DoFetch (r : Request)
| SetTimeout (call : PollCall) (delay : Q)
| StartPoll (call : PollCall).

(** The value an action resolves to; the message listener adds
    [success: true].  A thrown [Error] is the left injection of its
    message, which the listener turns into [{success: false, error}]. *)
Inductive Reply : Type :=
| SubmittedMock (jobId : string) (res : Obj)
| Submitted (jobId backendJobId : string)
| JobStatus (st : string) (prog : option Json) (res : option Obj)
            (err : option string)
| Cancelled
| MockResponse (res : Obj).

Definition Outcome : Type := string + Reply.

(** ** Utility functions *)

(** ['job-' + Date.now() + '-' + Math.random().toString(36).substr(2, 9)];
    [rnd] is the random suffix. *)
Definition generateJobId (now : Time) (rnd : string) : string :=
  "job-" +:+ dec now +:+ "-" +:+ rnd.

(** ** Mock response *)

Definition mock_result (now : Time) : Obj :=
  [ ("job_id", JStr ("mock-" +:+ dec now));
    ("material", JStr "aluminium");
    ("co2_kg", JNum 123.45);
    ("circularity_score", JNum 67);
    ("recycled_percent", JNum 30);
    ("recommendations", JArr
       [ JStr "Increase recycled content to 50% to reduce CO₂ emissions by 25%";
         JStr "Switch to renewable energy sources for production";
         JStr "Optimize transportation routes to reduce distance by 20%";
         JStr "Implement closed-loop recycling system" ]);
    ("raw_json", JObj
       [ ("material_composition", JObj
            [ ("primary_material", JStr "aluminium");
              ("alloy_type", JStr "6061");
              ("recycled_content", JNum 30);
              ("virgin_content", JNum 70) ]);
         ("energy_analysis", JObj
            [ ("total_energy_kwh", JNum 100);
              ("renewable_percentage", JNum 45);
              ("grid_intensity_gco2_kwh", JNum 400) ]);
         ("transport_analysis", JObj
            [ ("distance_km", JNum 50);
              ("mode", JStr "truck");
              ("emissions_kg", JNum 15.5) ]);
         ("lifecycle_phases", JObj
            [ ("extraction", JNum 45.2);
              ("processing", JNum 52.8);
              ("transport", JNum 15.5);
              ("use_phase", JNum 0);
              ("end_of_life", JNum 10.0) ]) ]) ].

Definition getMockResponse (now : Time) : Outcome :=
  inr (MockResponse (mock_result now)).

(** ** Submission *)

(** The job object built by [submitJob]. *)
Definition new_job (jobId : string) (payload : Obj) (now : Time) : JobRecord :=
  {| Job.id := jobId;
     Job.url := obj_get "url" payload;
     Job.payload := obj_set "job_id" (JStr jobId) payload;
     Job.status := "pending";
     Job.createdAt := now;
     Job.updatedAt := now;
     Job.retries := 0;
     Job.error := None;
     Job.result := None;
     Job.backendJobId := None;
     Job.progress := None |}.

(** The inner [catch] of [submitJob]: record the failure and rethrow. *)
Definition submit_failed (jobs : Store) (job : JobRecord) (now : Time)
    (message : string) (effs : list Effect) : Store * list Effect * Outcome :=
  let job := set_updatedAt now (set_error (Some message) (set_status "error" job)) in
  (updateJob jobs job, effs, inl message).

(** [submitJob(payload, mockMode)].  [now] and [rnd] are the clock and the
    random suffix read before the request, [now'] the clock when the
    response has arrived, [resp] the outcome of the request.  The run from
    [saveJob] to the final [updateJob] is taken as uninterrupted. *)
Definition submitJob (cfg : Settings) (jobs : Store) (payload : Obj)
    (mockMode : bool) (now : Time) (rnd : string) (now' : Time)
    (resp : Fetch SubmitData) : Store * list Effect * Outcome :=
  if mockMode then
    match getMockResponse now with
    | inr (MockResponse res) =>
        (jobs, [], inr (SubmittedMock (generateJobId now rnd) res))
    | other => (jobs, [], other)
    end
  else
    match truthy (backendUrl cfg) with
    | None =>
        (jobs, [], inl "Backend URL not configured. Please set it in Options.")
    | Some backendUrl =>
        match truthy (apiKey cfg) with
        | None =>
            (jobs, [], inl "API Key not configured. Please set it in Options.")
        | Some apiKey =>
            let jobId := generateJobId now rnd in
            let job := new_job jobId payload now in
            let jobs := saveJob jobs job in
            let effs := [DoFetch (PostSubmit backendUrl apiKey (Job.payload job))] in
            match resp with
            | Rejected message => submit_failed jobs job now' message effs
            | Responded false st txt _ =>
                submit_failed jobs job now'
                  ("Backend returned " +:+ dec st +:+ ": " +:+ txt) effs
            | Responded true _ _ (inl message) =>
                submit_failed jobs job now' message effs
            | Responded true _ _ (inr data) =>
                let bid := or_else (sub_job_id data) jobId in
                let job :=
                  set_updatedAt now'
                    (set_backendJobId (Some bid) (set_status "pending" job)) in
                (updateJob jobs job,
                 effs ++ [StartPoll (mkPollCall (Job.id job) backendUrl apiKey 0)],
                 inr (Submitted (Job.id job) bid))
            end
        end
    end.

(** ** Polling *)

(** [job.status === 'done' || job.status === 'error']. *)
Definition terminal (st : string) : bool :=
  bool_decide (st = "done") || bool_decide (st = "error").

(** [job.status === 'pending' || job.status === 'running'] (or the same
    test with the operands swapped). *)
Definition active (st : string) : bool :=
  bool_decide (st = "pending") || bool_decide (st = "running").

(** The job object as the timeout branch rewrites it. *)
Definition timed_out (now : Time) (job : JobRecord) : JobRecord :=
  set_updatedAt now
    (set_error (Some "Timeout: Job did not complete in time")
       (set_status "error" job)).

(** The branch taken when [attempt >= CONFIG.POLL_MAX_ATTEMPTS]. *)
Definition poll_timeout (jobs : Store) (jobId : string) (now : Time) : Store :=
  match getJobById jobs jobId with
  | Some job =>
      if active (Job.status job) then updateJob jobs (timed_out now job)
      else jobs
  | None => jobs
  end.

(** Delay before the next attempt after a poll that left the job
    non-terminal. *)
Definition next_delay (attempt : nat) : Q :=
  CONFIG.POLL_INTERVAL_MS * pow CONFIG.BACKOFF_MULTIPLIER (Nat.min attempt 5).

(** Delay computed in the [catch] block. *)
Definition retry_delay (attempt : nat) : Q :=
  CONFIG.POLL_INTERVAL_MS * pow CONFIG.BACKOFF_MULTIPLIER attempt.

Definition next_call (c : PollCall) : PollCall :=
  mkPollCall (pc_jobId c) (pc_backendUrl c) (pc_apiKey c) (pc_attempt c + 1).

(** A poll up to its status request: it has either returned, or holds the
    job object it read and waits for the response. *)
Inductive PollPhase : Type :=
| Returned (jobs : Store)
| InFlight (job : JobRecord) (backendJobId : string).

Definition poll_begin (jobs : Store) (c : PollCall) (now : Time) : PollPhase :=
  if bool_decide (CONFIG.POLL_MAX_ATTEMPTS <= pc_attempt c)%nat then
    Returned (poll_timeout jobs (pc_jobId c) now)
  else
    match getJobById jobs (pc_jobId c) with
    | None => Returned jobs
    | Some job =>
        if terminal (Job.status job) then Returned jobs
        else InFlight job (or_else (Job.backendJobId job) (Job.id job))
    end.

(** The [catch] block: nothing is written, the next attempt is scheduled. *)
Definition poll_caught (jobs : Store) (c : PollCall) (effs : list Effect)
    : Store * list Effect :=
  (jobs, effs ++ [SetTimeout (next_call c) (retry_delay (pc_attempt c))]).

(** [await updateJob(job)] and the test that follows it. *)
Definition poll_commit (jobs : Store) (c : PollCall) (job : JobRecord)
    (effs : list Effect) : Store * list Effect :=
  (updateJob jobs job,
   if active (Job.status job) then
     effs ++ [SetTimeout (next_call c) (next_delay (pc_attempt c))]
   else effs).

(** The job object after the three assignments that follow the status
    response. *)
Definition polled (now : Time) (statusData : StatusData) (job : JobRecord)
    : JobRecord :=
  set_updatedAt now
    (set_progress (st_progress statusData)
       (set_status (st_status statusData) job)).

(** The rest of a poll, from the arrival of the status response.  [job] is
    the object read by [poll_begin]; [jobs] is the store as it is when
    [updateJob] runs; [now] is the clock after the status response;
    [resultResp] is consulted only if the result is requested.  The status
    request, sent by the first half, is listed here, so that the effects
    of a whole poll read in program order. *)
Definition poll_resume (jobs : Store) (c : PollCall) (job : JobRecord)
    (bid : string) (now : Time) (statusResp : Fetch StatusData)
    (resultResp : Fetch Obj) : Store * list Effect :=
  let asked := [DoFetch (GetStatus (pc_backendUrl c) (pc_apiKey c) bid)] in
  match statusResp with
  | Responded true _ _ (inr statusData) =>
      let job := polled now statusData job in
      if bool_decide (st_status statusData = "done") then
        let asked :=
          asked ++ [DoFetch (GetResult (pc_backendUrl c) (pc_apiKey c) bid)] in
        match resultResp with
        | Rejected _ => poll_caught jobs c asked
        | Responded true _ _ (inl _) => poll_caught jobs c asked
        | Responded true _ _ (inr res) =>
            poll_commit jobs c (set_result (Some res) job) asked
        | Responded false _ _ _ => poll_commit jobs c job asked
        end
      else if bool_decide (st_status statusData = "error") then
        poll_commit jobs c
          (set_error (Some (or_else (st_error statusData) "Unknown error")) job)
          asked
      else poll_commit jobs c job asked
  | _ => poll_caught jobs c asked
  end.

(** [pollJobStatus(jobId, backendUrl, apiKey, attempt)] run without
    interruption. *)
Definition pollJobStatus (jobs : Store) (c : PollCall) (now : Time)
    (statusResp : Fetch StatusData) (resultResp : Fetch Obj)
    : Store * list Effect :=
  match poll_begin jobs c now with
  | Returned jobs' => (jobs', [])
  | InFlight job bid => poll_resume jobs c job bid now statusResp resultResp
  end.

(** ** Status lookup and cancellation *)

Definition getJobStatus (jobs : Store) (jobId : string) : Outcome :=
  match getJobById jobs jobId with
  | None => inl "Job not found"
  | Some job =>
      inr (JobStatus (Job.status job) (Job.progress job) (Job.result job)
             (Job.error job))
  end.

(** The job object as [cancelJob] rewrites it. *)
Definition cancelled (now : Time) (job : JobRecord) : JobRecord :=
  set_updatedAt now
    (set_error (Some "Cancelled by user") (set_status "error" job)).

Definition cancelJob (jobs : Store) (jobId : string) (now : Time)
    : Store * Outcome :=
  match getJobById jobs jobId with
  | None => (jobs, inl "Job not found")
  | Some job => (updateJob jobs (cancelled now job), inr Cancelled)
  end.

(** ** The jobs page (jobs.js) *)

(** [deleteJob]: [jobs.filter(j => j.id !== jobId)] written back. *)
Definition deleteJob (jobs : Store) (jobId : string) : Store :=
  filter (λ j, Job.id j ≠ jobId) jobs.

(** [clearAllJobs]: [jobs: []] written. *)
Definition clearAllJobs (jobs : Store) : Store := [].

(** ** Interleaved runs *)

(** The polls an effect list leaves behind: the timers set and the call
    started by [submitJob]. *)
Fixpoint scheduled (effs : list Effect) : list PollCall :=
  match effs with
  | [] => []
  | SetTimeout c _ :: effs' => c :: scheduled effs'
  | StartPoll c :: effs' => c :: scheduled effs'
  | DoFetch _ :: effs' => scheduled effs'
  end.

(** The requests an effect list contains. *)
Fixpoint requests (effs : list Effect) : list Request :=
  match effs with
  | [] => []
  | DoFetch r :: effs' => r :: requests effs'
  | _ :: effs' => requests effs'
  end.

(** A poll waiting for its status response. *)
Record Pending : Type := mkPending {
  pd_call : PollCall;
  pd_job : JobRecord;
  pd_backendJobId : string
}.

(** The extension between two steps: the stored jobs, the poll calls that
    have been scheduled and not yet started, and the polls in flight. *)
Record World : Type := mkWorld {
  w_jobs : Store;
  w_timers : list PollCall;
  w_inflight : list Pending
}.

Definition initial : World := mkWorld [] [] [].

(** One step of the extension, with what the environment supplies to it.
    [Wake i] starts the [i]-th scheduled poll and runs it to its status
    request; [Respond i] delivers the responses to the [i]-th poll in
    flight and runs it to its end. *)
Inductive Op : Type :=
| Submit (cfg : Settings) (payload : Obj) (mockMode : bool) (now : Time)
         (rnd : string) (now' : Time) (resp : Fetch SubmitData)
| GetJobStatus (jobId : string)
| Cancel (jobId : string) (now : Time)
| Wake (i : nat) (now : Time)
| Respond (i : nat) (now : Time) (statusResp : Fetch StatusData)
          (resultResp : Fetch Obj)
| Delete (jobId : string)
| ClearAll.

Definition exec (w : World) (op : Op) : World :=
  match op with
  | Submit cfg payload mockMode now rnd now' resp =>
      let '(jobs, effs, _) :=
        submitJob cfg (w_jobs w) payload mockMode now rnd now' resp in
      mkWorld jobs (w_timers w ++ scheduled effs) (w_inflight w)
  | GetJobStatus _ => w
  | Cancel jobId now =>
      mkWorld (fst (cancelJob (w_jobs w) jobId now)) (w_timers w) (w_inflight w)
  | Wake i now =>
      match w_timers w !! i with
      | None => w
      | Some c =>
          match poll_begin (w_jobs w) c now with
          | Returned jobs => mkWorld jobs (delete i (w_timers w)) (w_inflight w)
          | InFlight job bid =>
              mkWorld (w_jobs w) (delete i (w_timers w))
                (w_inflight w ++ [mkPending c job bid])
          end
      end
  | Respond i now statusResp resultResp =>
      match w_inflight w !! i with
      | None => w
      | Some p =>
          let '(jobs, effs) :=
            poll_resume (w_jobs w) (pd_call p) (pd_job p) (pd_backendJobId p)
              now statusResp resultResp in
          mkWorld jobs (w_timers w ++ scheduled effs) (delete i (w_inflight w))
      end
  | Delete jobId => mkWorld (deleteJob (w_jobs w) jobId) (w_timers w) (w_inflight w)
  | ClearAll => mkWorld (clearAllJobs (w_jobs w)) (w_timers w) (w_inflight w)
  end.

Definition run (ops : list Op) (w : World) : World := foldl exec w ops.

(** The worlds the extension can be in. *)
Definition reachable (w : World) : Prop := ∃ ops, w = run ops initial.

(** ** The poll loop of one job *)

(** [n] consecutive invocations of the loop started by [call], nothing else
    running in between: each invocation runs to its end and the call it
    scheduled, if any, is the next one.  [clock k] and [backend k] are the
    clock and the responses seen by the invocation with attempt number
    [k].  Returns the store, the call still scheduled, and all effects. *)
Fixpoint poll_loop (n : nat) (jobs : Store) (call : option PollCall)
    (clock : nat → Time) (backend : nat → Fetch StatusData * Fetch Obj)
    : Store * option PollCall * list Effect :=
  match n, call with
  | S n', Some c =>
      let '(jobs', effs) :=
        pollJobStatus jobs c (clock (pc_attempt c))
          (fst (backend (pc_attempt c))) (snd (backend (pc_attempt c))) in
      let '(jobs'', call', effs') :=
        poll_loop n' jobs' (head (scheduled effs)) clock backend in
      (jobs'', call', effs ++ effs')
  | _, _ => (jobs, call, [])
  end.

(** [c] with its attempt number replaced. *)
Definition at_attempt (c : PollCall) (n : nat) : PollCall :=
  mkPollCall (pc_jobId c) (pc_backendUrl c) (pc_apiKey c) n.

(** A backend whose every status response reports ['running']. *)
Definition always_running (backend : nat → Fetch StatusData * Fetch Obj)
    : Prop :=
  ∀ k, ∃ st txt sd,
    fst (backend k) = Responded true st txt (inr sd)
    ∧ st_status sd = "running".

(** ** Sequences of polls *)

(** One uninterrupted poll, with what the environment supplies to it. *)
Record Invocation : Type := mkInvocation {
  in_call : PollCall;
  in_now : Time;
  in_status : Fetch StatusData;
  in_result : Fetch Obj
}.

(** Polls run one after the other, each to its end. *)
Definition polls (jobs : Store) (l : list Invocation) : Store :=
  foldl
    (λ jobs v,
       fst (pollJobStatus jobs (in_call v) (in_now v) (in_status v)
              (in_result v)))
    jobs l.

(** ** Predicates used in the statements *)

(** A request that did not yield a body: rejected, answered with a
    non-2xx status, or answered with a body that does not parse. *)
Definition failed {A} (r : Fetch A) : bool :=
  match r with
  | Responded true _ _ (inr _) => false
  | _ => true
  end.

(** What holds of the [error] property of every record the coordinator
    writes: set exactly on the records whose status is ['error']. *)
Definition error_ok (j : JobRecord) : Prop :=
  (Job.status j = "error" → is_Some (Job.error j))
  ∧ (Job.status j ≠ "error" → Job.error j = None).

(** The steps that belong to poll loops or only read the store. *)
Definition poll_step (op : Op) : bool :=
  match op with
  | Wake _ _ | Respond _ _ _ _ | GetJobStatus _ => true
  | _ => false
  end.

(** No poll of job [i] is waiting for its status response. *)
Definition quiet (i : string) (w : World) : Prop :=
  Forall (λ p, Job.id (pd_job p) ≠ i) (w_inflight w).

(** ** The store operation of the specification *)

(** [upsert] as the specification words it, to compare the storage helpers
    with: insert the record if its id is new, else overwrite the record
    with that id in place. *)
Fixpoint upsert (jobs : Store) (r : JobRecord) : Store :=
  match jobs with
  | [] => [r]
  | j :: jobs' =>
      if decide (Job.id j = Job.id r) then r :: jobs' else j :: upsert jobs' r
  end.

(** ** Sample data *)

Definition sample_settings : Settings :=
  mkSettings (Some "https://backend.example") (Some "secret").

Definition sample_payload : Obj :=
  [("url", JStr "https://example.com"); ("raw_text", JStr "hello")].

(** A 200 response with a well-formed body. *)
Definition ok_response {A} (body : A) : Fetch A :=
  Responded true 200 "OK" (inr body).

(** A status response that reports [st] and nothing else. *)
Definition reports (st : string) : Fetch StatusData :=
  ok_response (mkStatusData st None None).

(** A 500 response. *)
Definition server_error {A} : Fetch A :=
  Responded false 500 "Internal Server Error" (inl "").

(** A job as [submitJob] leaves it after an accepted submission. *)
Definition job_a : JobRecord :=
  set_backendJobId (Some "job-123")
    (new_job "job-1000-abc" sample_payload 1000).

(** Another job, which the backend has reported as ['running']. *)
Definition job_b : JobRecord :=
  set_status "running" (new_job "job-2000-xyz" sample_payload 2000).

(** [job_a] completed, with a result. *)
Definition job_a_done : JobRecord :=
  set_result (Some (mock_result 0)) (set_status "done" job_a).

(** [job_a] after a poll that was told ['done'] and got no result. *)
Definition job_a_stuck : JobRecord :=
  set_updatedAt 3000 (set_status "done" job_a).

(** The polls of [job_a]. *)
Definition poll_a (attempt : nat) : PollCall :=
  mkPollCall "job-1000-abc" "https://backend.example" "secret" attempt.

Definition sample_clock (k : nat) : Time := (10000 + 2000 * N.of_nat k)%N.

Definition running_backend (k : nat) : Fetch StatusData * Fetch Obj :=
  (reports "running", server_error).

(** A backend that is unreachable on even attempts and reports
    ['pending'] on odd ones. *)
Definition flaky_backend (k : nat) : Fetch StatusData * Fetch Obj :=
  if Nat.even k then (Rejected "Failed to fetch", server_error)
  else (reports "pending", server_error).

(** The submission of [sample_payload], accepted by the backend under the
    id ['job-123']: it stores [job_a] and starts the poll [poll_a 0]. *)
Definition submit_a : Op :=
  Submit sample_settings sample_payload false 1000 "abc" 1000
    (ok_response (mkSubmitData (Some "job-123"))).

(** A run in which the result request of the first poll is answered with
    a 500 response. *)
Definition lost_result_run : list Op :=
  [submit_a; Wake 0 2000; Respond 0 3000 (reports "done") server_error].

(** A run in which the user cancels while the status request of the first
    poll is in flight. *)
Definition cancel_race_run : list Op :=
  [submit_a; Wake 0 2000; Cancel "job-1000-abc" 2500].

(** ** The message router *)

(** A message sent to the background script.  A field the sender leaves
    out is read as [undefined]; the fields are typed as the handlers use
    them ([mockMode] defaults to [false]). *)
Module Msg.
Record t : Type := mk {
  action : string;
  payload : Obj;
  mockMode : bool;
  jobId : string
}.
End Msg.

(** What the environment supplies to one message: the clock and the random
    suffix when the handler starts, and, for a submission, the clock when
    the response has arrived and the outcome of the request. *)
Record Env : Type := mkEnv {
  env_now : Time;
  env_rnd : string;
  env_later : Time;
  env_submit : Fetch SubmitData
}.

(** [handleMessage(request, sender)]. *)
Definition handleMessage (cfg : Settings) (jobs : Store) (request : Msg.t)
    (env : Env) : Store * list Effect * Outcome :=
  if decide (Msg.action request = "submitJob") then
    submitJob cfg jobs (Msg.payload request) (Msg.mockMode request)
      (env_now env) (env_rnd env) (env_later env) (env_submit env)
  else if decide (Msg.action request = "getJobStatus") then
    (jobs, [], getJobStatus jobs (Msg.jobId request))
  else if decide (Msg.action request = "cancelJob") then
    let '(jobs', out) := cancelJob jobs (Msg.jobId request) (env_now env) in
    (jobs', [], out)
  else if decide (Msg.action request = "getMockResponse") then
    (jobs, [], getMockResponse (env_now env))
  else (jobs, [], inl ("Unknown action: " +:+ Msg.action request)).

(** What [sendResponse] is called with: the reply of the handler, which
    carries [success: true], or [{success: false, error}]. *)
Inductive Response : Type :=
| Success (reply : Reply)
| Failure (error : string).

(** The [onMessage] listener. *)
Definition onMessage (cfg : Settings) (jobs : Store) (request : Msg.t)
    (env : Env) : Store * list Effect * Response :=
  let '(jobs', effs, out) := handleMessage cfg jobs request env in
  (jobs', effs,
   match out with
   | inr reply => Success reply
   | inl message => Failure message
   end).

(** ** More of the jobs page (jobs.js) *)

(** The comparator [(a, b) => new Date(b.createdAt) - new Date(a.createdAt)]
    puts [a] after [b] exactly when [b] was created later.  [sort] is
    stable, so with this comparator its result is the one of a stable
    insertion: a job goes past the jobs created strictly later than it and
    stays in front of the others. *)
Fixpoint insert_newest (a : JobRecord) (l : list JobRecord) : list JobRecord :=
  match l with
  | [] => [a]
  | b :: l' =>
      if decide (Job.createdAt a < Job.createdAt b)%N
      then b :: insert_newest a l'
      else a :: l
  end.

Definition sort_newest (l : list JobRecord) : list JobRecord :=
  foldr insert_newest [] l.

(** What [loadJobs] puts on the page. *)
Inductive JobsView : Type :=
| EmptyState
| Rendered (jobs : list JobRecord).

(** [loadJobs], with the value of the status filter. *)
Definition loadJobs (jobs : Store) (filterStatus : string) : JobsView :=
  let filteredJobs :=
    if decide (filterStatus = "all") then jobs
    else filter (λ job, Job.status job = filterStatus) jobs in
  let filteredJobs := sort_newest filteredJobs in
  if decide (length filteredJobs = 0) then EmptyState
  else Rendered filteredJobs.

(** What [viewJob] does: an alert, or a window with the result page of the
    job. *)
Inductive Viewed : Type :=
| Alert (message : string)
| ResultWindow (job : JobRecord).

Definition viewJob (jobs : Store) (jobId : string) : Viewed :=
  match getJobById jobs jobId with
  | None => Alert "No result available for this job"
  | Some job =>
      match Job.result job with
      | None => Alert "No result available for this job"
      | Some _ => ResultWindow job
      end
  end.

(** [formatDate(dateString)] at the instant [now].  [locale] stands for
    [date.toLocaleDateString() + ' ' + date.toLocaleTimeString()], which
    depends on the user's locale. *)
Definition formatDate (locale : Time → string) (dateString now : Time)
    : string :=
  let diff := (Z.of_N now - Z.of_N dateString)%Z in
  if (diff <? 60000)%Z then "Just now"
  else if (diff <? 3600000)%Z then
    dec (Z.to_N (diff / 60000)) +:+ "m ago"
  else if (diff <? 86400000)%Z then
    dec (Z.to_N (diff / 3600000)) +:+ "h ago"
  else locale dateString.

(** ** The popup's own polling *)

Module Popup.

(** What the popup does while it polls. *)
Inductive UiEffect : Type :=
| SendGetJobStatus (jobId : string)
| ShowStatus (message type : string)
| DisplayResults (res : option Obj)
| PollAgain (ms : N).

Definition maxAttempts : nat := 20.

(** The body of [poll] after [attempts++] and the arrival of the response;
    [attempts] is the incremented counter. *)
Definition poll_body (attempts : nat) (response : Response) : list UiEffect :=
  match response with
  | Success (JobStatus st _ res err) =>
      if decide (st = "done") then
        [ShowStatus "✓ Analysis complete!" "success"; DisplayResults res]
      else if decide (st = "error") then
        [ShowStatus ("✗ Analysis failed: " +:+ or_else err "Unknown error")
           "error"]
      else if bool_decide (st = "running") || bool_decide (st = "pending") then
        ShowStatus ("⏳ Processing... (" +:+ st +:+ ")") "info"
        :: (if decide (attempts < maxAttempts) then [PollAgain 2000]
            else [ShowStatus "⏱ Timeout waiting for results. Check Jobs page."
                    "error"])
      else []
  | Success _ => []
  | Failure message =>
      [ShowStatus
         ("✗ Error checking status: "
          +:+ or_else (Some message) "Failed to check status") "error"]
  end.

(** Whether [poll] has set its timer again. *)
Definition again (effs : list UiEffect) : bool :=
  existsb (λ e, match e with PollAgain _ => true | _ => false end) effs.

(** [pollJobStatus(jobId)] of the popup: up to [n] runs of [poll], the run
    that has incremented the counter to [k] finding the store [stores k]
    in the background script. *)
Fixpoint pollJobStatus (n attempts : nat) (jobId : string)
    (stores : nat → Store) : list UiEffect :=
  match n with
  | 0 => []
  | S n' =>
      let attempts := S attempts in
      let response :=
        match getJobStatus (stores attempts) jobId with
        | inr reply => Success reply
        | inl message => Failure message
        end in
      let effs := poll_body attempts response in
      SendGetJobStatus jobId :: effs
      ++ (if again effs then pollJobStatus n' attempts jobId stores else [])
  end.

(** The messages sent. *)
Fixpoint sent (effs : list UiEffect) : nat :=
  match effs with
  | [] => 0
  | SendGetJobStatus _ :: effs' => S (sent effs')
  | _ :: effs' => sent effs'
  end.

End Popup.

(** ** Counting *)

(** The ids under which a step stores a record, and the ids for which it
    starts a poll loop: those of a submission, which do not depend on the
    store. *)
Definition stored_by (op : Op) : list string :=
  match op with
  | Submit cfg payload mockMode now rnd now' resp =>
      Job.id <$> (submitJob cfg [] payload mockMode now rnd now' resp).1.1
  | _ => []
  end.

Definition started_by (op : Op) : list string :=
  match op with
  | Submit cfg payload mockMode now rnd now' resp =>
      pc_jobId
        <$> scheduled (submitJob cfg [] payload mockMode now rnd now' resp).1.2
  | _ => []
  end.

(** The polls of job [i] that are scheduled or in flight. *)
Definition outstanding (i : string) (w : World) : nat :=
  length (filter (λ c, pc_jobId c = i) (w_timers w))
  + length (filter (λ p, pc_jobId (pd_call p) = i) (w_inflight w)).

(** The delays of the timers an effect list sets, and their sum. *)
Fixpoint delays (effs : list Effect) : list Q :=
  match effs with
  | [] => []
  | SetTimeout _ d :: effs' => d :: delays effs'
  | _ :: effs' => delays effs'
  end.

Definition total (ds : list Q) : Q := foldr Qplus 0%Q ds.

Definition is_status_request (r : Request) : bool :=
  match r with
  | GetStatus _ _ _ => true
  | _ => false
  end.

(** The number of status requests an effect list contains. *)
Definition status_requests (effs : list Effect) : nat :=
  length (List.filter is_status_request (requests effs)).

(** Whether a string is free of the character ['-']. *)
Fixpoint no_dash (s : string) : bool :=
  match s with
  | EmptyString => true
  | String a s' => negb (Ascii.eqb a "-"%char) && no_dash s'
  end.

(** The shape every record written by the coordinator has. *)
Definition well_formed (j : JobRecord) : Prop :=
  Job.retries j = 0%N
  ∧ obj_get "job_id" (Job.payload j) = Some (JStr (Job.id j))
  ∧ (is_Some (Job.result j) → terminal (Job.status j) = true).

(** ** Submissions in flight *)

(** [submitJob] awaits the response to its POST between [saveJob] and the
    [updateJob] that follows, and calls [pollJobStatus] right after that
    [updateJob].  As for a poll, the submission is also given split at its
    request, so that other operations can be interleaved while the POST is
    in flight. *)

(** A submission waiting for the response to its POST: the job object it
    holds and the settings it read. *)
Record Posting : Type := mkPosting {
  ps_job : JobRecord;
  ps_backendUrl : string;
  ps_apiKey : string
}.

(** A submission up to its POST: it has either ended (with the mock result
    or a thrown configuration error, the store untouched), or has stored
    the new job and waits for the response. *)
Inductive SubmitPhase : Type :=
| Ended (out : Outcome)
| Awaiting (jobs : Store) (p : Posting).

Definition submit_begin (cfg : Settings) (jobs : Store) (payload : Obj)
    (mockMode : bool) (now : Time) (rnd : string) : SubmitPhase :=
  if mockMode then
    match getMockResponse now with
    | inr (MockResponse res) =>
        Ended (inr (SubmittedMock (generateJobId now rnd) res))
    | other => Ended other
    end
  else
    match truthy (backendUrl cfg) with
    | None => Ended (inl "Backend URL not configured. Please set it in Options.")
    | Some backendUrl =>
        match truthy (apiKey cfg) with
        | None => Ended (inl "API Key not configured. Please set it in Options.")
        | Some apiKey =>
            let jobId := generateJobId now rnd in
            let job := new_job jobId payload now in
            Awaiting (saveJob jobs job) (mkPosting job backendUrl apiKey)
        end
    end.

(** The rest of a submission, from the arrival of the response to the
    POST.  [jobs] is the store as it is when [updateJob] runs, [now'] the
    clock at that moment.  The job object is the one built before the
    request: the store is not read again.  The POST, sent by the first
    half, is listed here, as in [poll_resume]. *)
Definition submit_resume (jobs : Store) (p : Posting) (now' : Time)
    (resp : Fetch SubmitData) : Store * list Effect * Outcome :=
  let job := ps_job p in
  let effs :=
    [DoFetch (PostSubmit (ps_backendUrl p) (ps_apiKey p) (Job.payload job))] in
  match resp with
  | Rejected message => submit_failed jobs job now' message effs
  | Responded false st txt _ =>
      submit_failed jobs job now'
        ("Backend returned " +:+ dec st +:+ ": " +:+ txt) effs
  | Responded true _ _ (inl message) =>
      submit_failed jobs job now' message effs
  | Responded true _ _ (inr data) =>
      let bid := or_else (sub_job_id data) (Job.id job) in
      let job :=
        set_updatedAt now'
          (set_backendJobId (Some bid) (set_status "pending" job)) in
      (updateJob jobs job,
       effs ++ [StartPoll (mkPollCall (Job.id job) (ps_backendUrl p)
                             (ps_apiKey p) 0)],
       inr (Submitted (Job.id job) bid))
  end.

(** The extension between two steps, with the submissions in flight next
    to the timers and the polls in flight. *)
Record System : Type := mkSystem {
  s_jobs : Store;
  s_posts : list Posting;
  s_timers : list PollCall;
  s_inflight : list Pending
}.

Definition idle : System := mkSystem [] [] [] [].

(** The part of a system that [exec] works on, and a system with that part
    replaced. *)
Definition world (s : System) : World :=
  mkWorld (s_jobs s) (s_timers s) (s_inflight s).

Definition on_world (s : System) (w : World) : System :=
  mkSystem (w_jobs w) (s_posts s) (w_timers w) (w_inflight w).

(** [pollJobStatus] called without [await]: the call runs at once up to its
    status request. *)
Definition start_poll (s : System) (c : PollCall) (now : Time) : System :=
  match poll_begin (s_jobs s) c now with
  | Returned jobs => mkSystem jobs (s_posts s) (s_timers s) (s_inflight s)
  | InFlight job bid =>
      mkSystem (s_jobs s) (s_posts s) (s_timers s)
        (s_inflight s ++ [mkPending c job bid])
  end.

(** One step of the extension, a submission being two steps: [EvSubmit]
    runs [submitJob] up to its POST; [EvPosted i] delivers the response to
    the [i]-th submission in flight, runs it to its end and, when it
    starts the poll loop, the first poll up to its status request.  The
    other events are the steps of [exec]. *)
Inductive Event : Type :=
| EvSubmit (cfg : Settings) (payload : Obj) (mockMode : bool) (now : Time)
           (rnd : string)
| EvPosted (i : nat) (now' : Time) (resp : Fetch SubmitData)
| EvGetJobStatus (jobId : string)
| EvCancel (jobId : string) (now : Time)
| EvWake (i : nat) (now : Time)
| EvRespond (i : nat) (now : Time) (statusResp : Fetch StatusData)
            (resultResp : Fetch Obj)
| EvDelete (jobId : string)
| EvClearAll.

Definition step (s : System) (e : Event) : System :=
  match e with
  | EvSubmit cfg payload mockMode now rnd =>
      match submit_begin cfg (s_jobs s) payload mockMode now rnd with
      | Ended _ => s
      | Awaiting jobs p =>
          mkSystem jobs (s_posts s ++ [p]) (s_timers s) (s_inflight s)
      end
  | EvPosted i now' resp =>
      match s_posts s !! i with
      | None => s
      | Some p =>
          let '(jobs, effs, _) := submit_resume (s_jobs s) p now' resp in
          let s' :=
            mkSystem jobs (delete i (s_posts s)) (s_timers s) (s_inflight s) in
          match scheduled effs with
          | [] => s'
          | c :: _ => start_poll s' c now'
          end
      end
  | EvGetJobStatus jobId => on_world s (exec (world s) (GetJobStatus jobId))
  | EvCancel jobId now => on_world s (exec (world s) (Cancel jobId now))
  | EvWake i now => on_world s (exec (world s) (Wake i now))
  | EvRespond i now statusResp resultResp =>
      on_world s (exec (world s) (Respond i now statusResp resultResp))
  | EvDelete jobId => on_world s (exec (world s) (Delete jobId))
  | EvClearAll => on_world s (exec (world s) ClearAll)
  end.

Definition steps (evs : list Event) (s : System) : System := foldl step s evs.

(** Nothing of job [i] is waiting for a response: no poll for its status
    response and no submission for the response to its POST. *)
Definition settled (i : string) (s : System) : Prop :=
  quiet i (world s) ∧ Forall (λ p, Job.id (ps_job p) ≠ i) (s_posts s).

(** The events that are not a user action on job [i]: every step of a poll
    or of a submission in flight, every status lookup, and the
    submissions, cancellations and deletions of other jobs. *)
Definition elsewhere (i : string) (e : Event) : bool :=
  match e with
  | EvSubmit _ _ _ now rnd => bool_decide (generateJobId now rnd ≠ i)
  | EvCancel i' _ | EvDelete i' => bool_decide (i' ≠ i)
  | EvClearAll => false
  | _ => true
  end.

(** The submission of [sample_payload] up to its POST, and the response
    that accepts it under the id ['job-123']. *)
Definition submit_a_sent : Event :=
  EvSubmit sample_settings sample_payload false 1000 "abc".

Definition accepted_a : Fetch SubmitData :=
  ok_response (mkSubmitData (Some "job-123")).

(** The submission in flight that [submit_a_sent] leaves. *)
Definition posting_a : Posting :=
  mkPosting (new_job "job-1000-abc" sample_payload 1000)
    "https://backend.example" "secret".

(** [job_a] after its first poll was told ['running']. *)
Definition job_a_running : JobRecord :=
  set_updatedAt 3000 (set_status "running" job_a).

(** A run in which the first poll has been answered and the second is
    waiting for its timer. *)
Definition between_polls_run : list Event :=
  [submit_a_sent; EvPosted 0 1000 accepted_a;
   EvRespond 0 3000 (reports "running") server_error].

(** A run in which the user cancels while the POST is in flight. *)
Definition cancel_during_post_run : list Event :=
  [submit_a_sent; EvCancel "job-1000-abc" 1200; EvPosted 0 1500 accepted_a;
   EvRespond 0 3000 (reports "running") server_error].

(** * Properties *)

(** ** The storage helpers *)

Section store_lemmas.
Implicit Types (jobs : Store) (r j : JobRecord) (i : string).

Lemma getJobById_nil i : getJobById [] i = None.
Proof. reflexivity. Qed.

Lemma getJobById_cons j jobs i :
  getJobById (j :: jobs) i
  = if decide (Job.id j = i) then Some j else getJobById jobs i.
Proof.
  unfold getJobById. cbn [list_find]. case_decide; [done|].
  by destruct (list_find _ jobs) as [[??]|].
Qed.

Lemma updateJob_nil r : updateJob [] r = [].
Proof. reflexivity. Qed.

Lemma updateJob_cons j jobs r :
  updateJob (j :: jobs) r
  = if decide (Job.id j = Job.id r) then r :: jobs else j :: updateJob jobs r.
Proof.
  unfold updateJob. cbn [list_find]. case_decide; [done|].
  by destruct (list_find _ jobs) as [[??]|].
Qed.

(** What [find] returns is a stored record carrying the requested id. *)
Lemma getJobById_Some jobs i j :
  getJobById jobs i = Some j → Job.id j = i ∧ j ∈ jobs.
Proof.
  induction jobs as [|x jobs IH]; [done|].
  rewrite getJobById_cons. case_decide.
  - intros [= ->]. split; [done | left].
  - intros [??]%IH. split; [done | by right].
Qed.

(** [find] fails exactly on the ids that no stored record carries. *)
Lemma getJobById_None jobs i :
  getJobById jobs i = None ↔ i ∉ (Job.id <$> jobs).
Proof.
  induction jobs as [|x jobs IH]; csimpl.
  - split; [intros _; apply not_elem_of_nil | done].
  - rewrite getJobById_cons, not_elem_of_cons.
    destruct (decide (Job.id x = i)) as [He|He].
    + split; [done | intros [Hne _]; by destruct Hne].
    + rewrite IH. split; [intros ?; split; [congruence | done] | by intros [_ ?]].
Qed.

Lemma getJobById_is_Some jobs i :
  is_Some (getJobById jobs i) ↔ i ∈ (Job.id <$> jobs).
Proof.
  rewrite <- not_eq_None_Some, getJobById_None.
  destruct (decide (i ∈ (Job.id <$> jobs))) as [Hin|Hin]; [tauto|].
  split; [intros Hn; by destruct Hn | done].
Qed.

Lemma updateJob_absent jobs r :
  getJobById jobs (Job.id r) = None → updateJob jobs r = jobs.
Proof.
  induction jobs as [|x jobs IH]; [done|].
  rewrite getJobById_cons, updateJob_cons. case_decide; [done|].
  intros ?. by rewrite IH.
Qed.

(** [updateJob] writes at the index of the first record with the id. *)
Lemma updateJob_present jobs r old :
  getJobById jobs (Job.id r) = Some old →
  ∃ k, jobs !! k = Some old
       ∧ (∀ k' y, jobs !! k' = Some y → k' < k → Job.id y ≠ Job.id r)
       ∧ updateJob jobs r = <[k := r]> jobs.
Proof.
  induction jobs as [|x jobs IH]; [done|].
  rewrite getJobById_cons, updateJob_cons. case_decide.
  - intros [= ->]. exists 0. split_and!; [done | intros; lia | done].
  - intros (k & Hk & Hlt & ->)%IH. exists (S k). split_and!; [done | | done].
    intros [|k'] y; cbn.
    + by intros [= ->] _.
    + intros ??. apply (Hlt k'); [done | lia].
Qed.

Lemma length_updateJob jobs r : length (updateJob jobs r) = length jobs.
Proof.
  induction jobs as [|x jobs IH]; [done|].
  rewrite updateJob_cons. case_decide; cbn; congruence.
Qed.

(** The ids stay where they are. *)
Lemma ids_updateJob jobs r :
  Job.id <$> updateJob jobs r = Job.id <$> jobs.
Proof.
  induction jobs as [|x jobs IH]; [done|].
  rewrite updateJob_cons. case_decide; csimpl; congruence.
Qed.

Lemma getJobById_updateJob_eq jobs r :
  is_Some (getJobById jobs (Job.id r)) →
  getJobById (updateJob jobs r) (Job.id r) = Some r.
Proof.
  induction jobs as [|x jobs IH]; [by intros [??]|].
  rewrite getJobById_cons, updateJob_cons. case_decide.
  - intros _. rewrite getJobById_cons. by rewrite decide_True.
  - intros ?. rewrite getJobById_cons. rewrite decide_False by done. auto.
Qed.

(** Writing a record under the id of a stored one makes it the record
    that is read back. *)
Lemma getJobById_updateJob_same jobs i j r :
  getJobById jobs i = Some j → Job.id r = Job.id j →
  getJobById (updateJob jobs r) i = Some r.
Proof.
  intros Hj Hr. destruct (getJobById_Some _ _ _ Hj) as [Hid _].
  subst i. rewrite <- Hr in *. apply getJobById_updateJob_eq. by rewrite Hj.
Qed.

Lemma getJobById_updateJob_ne jobs r i :
  Job.id r ≠ i → getJobById (updateJob jobs r) i = getJobById jobs i.
Proof.
  intros Hne. induction jobs as [|x jobs IH]; [done|].
  rewrite updateJob_cons. case_decide.
  - rewrite !getJobById_cons. rewrite decide_False by done.
    rewrite decide_False by congruence. done.
  - rewrite !getJobById_cons. case_decide; [done | apply IH].
Qed.

Lemma getJobById_saveJob_old jobs r i j :
  getJobById jobs i = Some j → getJobById (saveJob jobs r) i = Some j.
Proof.
  unfold saveJob. induction jobs as [|x jobs IH]; [done|].
  cbn [app]. rewrite !getJobById_cons. case_decide; auto.
Qed.

Lemma getJobById_saveJob_new jobs r :
  getJobById jobs (Job.id r) = None →
  getJobById (saveJob jobs r) (Job.id r) = Some r.
Proof.
  unfold saveJob. induction jobs as [|x jobs IH].
  - intros _. cbn [app]. rewrite getJobById_cons. by rewrite decide_True.
  - cbn [app]. rewrite !getJobById_cons. case_decide; [done | auto].
Qed.

Lemma getJobById_saveJob_ne jobs r i :
  Job.id r ≠ i → getJobById (saveJob jobs r) i = getJobById jobs i.
Proof.
  intros Hne. unfold saveJob. induction jobs as [|x jobs IH].
  - cbn [app]. rewrite getJobById_cons. by rewrite decide_False.
  - cbn [app]. rewrite !getJobById_cons. case_decide; auto.
Qed.

End store_lemmas.

(** ** Facts about statuses and the poll *)

Lemma active_not_terminal st : active st = true → terminal st = false.
Proof.
  unfold active, terminal. intros H.
  repeat case_bool_decide; subst; try done.
Qed.

Lemma terminal_not_active st : terminal st = true → active st = false.
Proof.
  intros H. destruct (active st) eqn:E; [|done].
  apply active_not_terminal in E. congruence.
Qed.

(** Whatever the responses, the record a poll writes carries the id of
    the job object the poll holds. *)
Lemma poll_resume_other jobs c job bid now sr rr i :
  Job.id job ≠ i →
  getJobById (fst (poll_resume jobs c job bid now sr rr)) i = getJobById jobs i.
Proof.
  intros Hne. unfold poll_resume, poll_commit, poll_caught.
  destruct sr as [?|[] ? ? [?|sd]]; cbn [fst]; try done.
  repeat case_bool_decide; [destruct rr as [?|[] ? ? [?|?]]| |];
    cbn [fst]; try done; by apply getJobById_updateJob_ne.
Qed.

Lemma poll_resume_absent jobs c job bid now sr rr :
  getJobById jobs (Job.id job) = None →
  fst (poll_resume jobs c job bid now sr rr) = jobs.
Proof.
  intros Hno. unfold poll_resume, poll_commit, poll_caught.
  destruct sr as [?|[] ? ? [?|sd]]; cbn [fst]; try done.
  repeat case_bool_decide; [destruct rr as [?|[] ? ? [?|?]]| |];
    cbn [fst]; try done; by apply updateJob_absent.
Qed.

Lemma poll_timeout_other jobs i i' now :
  i ≠ i' → getJobById (poll_timeout jobs i now) i' = getJobById jobs i'.
Proof.
  intros Hne. unfold poll_timeout.
  destruct (getJobById jobs i) as [j|] eqn:Hj; [|done].
  destruct (active _); [|done].
  apply getJobById_updateJob_ne. cbn. by apply getJobById_Some in Hj as [-> _].
Qed.

(** A poll only ever touches the record of its own job. *)
Lemma pollJobStatus_other jobs c now sr rr i :
  pc_jobId c ≠ i →
  getJobById (fst (pollJobStatus jobs c now sr rr)) i = getJobById jobs i.
Proof.
  intros Hne. unfold pollJobStatus, poll_begin.
  case_bool_decide; [by apply poll_timeout_other|].
  destruct (getJobById jobs (pc_jobId c)) as [j|] eqn:Hj; [|done].
  destruct (terminal _); [done|].
  apply poll_resume_other. by apply getJobById_Some in Hj as [-> _].
Qed.

(** A poll that finds its job terminal returns at once: nothing is
    written, requested or scheduled. *)
Lemma pollJobStatus_terminal jobs c j now sr rr :
  getJobById jobs (pc_jobId c) = Some j →
  terminal (Job.status j) = true →
  pollJobStatus jobs c now sr rr = (jobs, []).
Proof.
  intros Hj Ht. unfold pollJobStatus, poll_begin, poll_timeout.
  rewrite Hj, Ht, (terminal_not_active _ Ht). by case_bool_decide.
Qed.

Lemma pollJobStatus_absent jobs c now sr rr :
  getJobById jobs (pc_jobId c) = None →
  pollJobStatus jobs c now sr rr = (jobs, []).
Proof.
  intros Hj. unfold pollJobStatus, poll_begin, poll_timeout.
  rewrite Hj. by case_bool_decide.
Qed.

(** ** Claims about the store *)

(** C10.  When no record of the store carries the id of a job object,
    [updateJob] with that object returns the store as it is: nothing is
    inserted.  Hence a poll whose response arrives after the user deleted
    the job, a poll that starts after the deletion, and a cancellation of
    the deleted job all leave the store unchanged. *)
Theorem updateJob_never_inserts (jobs : Store) (r : JobRecord) :
  Job.id r ∉ (Job.id <$> jobs) →
  updateJob jobs r = jobs
  ∧ (∀ c bid now sr rr, fst (poll_resume jobs c r bid now sr rr) = jobs)
  ∧ (∀ c now sr rr,
       pc_jobId c = Job.id r → pollJobStatus jobs c now sr rr = (jobs, []))
  ∧ (∀ now, cancelJob jobs (Job.id r) now = (jobs, inl "Job not found")).
Proof.
  intros Hno%getJobById_None. split_and!.
  - by apply updateJob_absent.
  - intros. by apply poll_resume_absent.
  - intros c now sr rr Hc. apply pollJobStatus_absent. by rewrite Hc.
  - intros now. unfold cancelJob. by rewrite Hno.
Qed.

(** The store after [job_a] has been deleted does not take it back. *)
Lemma updateJob_never_inserts_witness :
  (Job.id job_a ∉ (Job.id <$> deleteJob [job_b; job_a] "job-1000-abc"))
  ∧ updateJob (deleteJob [job_b; job_a] "job-1000-abc") job_a = [job_b].
Proof.
  assert (H : Job.id job_a ∉ (Job.id <$> deleteJob [job_b; job_a] "job-1000-abc")).
  { compute_done. }
  split; [exact H|].
  exact (proj1 (updateJob_never_inserts _ job_a H)).
Defined.

(** C7, the claim as stated fails: neither storage helper is an upsert.
    [updateJob] does not insert a record whose id is new, so reading it
    back finds nothing; [saveJob] appends a second record under an id
    that is already stored, so reading it back yields the old record. *)
Lemma storage_helpers_not_upsert :
  updateJob [] job_a ≠ upsert [] job_a
  ∧ getJobById (updateJob [] job_a) (Job.id job_a) = None
  ∧ saveJob [job_a] job_a_done ≠ upsert [job_a] job_a_done
  ∧ getJobById (saveJob [job_a] job_a_done) (Job.id job_a_done) = Some job_a
  ∧ job_a ≠ job_a_done.
Proof.
  split_and!; [discriminate | reflexivity | discriminate | reflexivity |].
  discriminate.
Qed.

(** C7, amended.  The store has two write operations.  [saveJob] appends
    the record; when the id is not yet stored this is the insertion of
    [upsert] and the record is read back unchanged.  [updateJob] applied
    to a stored id overwrites the first record with that id at its index,
    keeping the length, which is the overwrite of [upsert], and the record
    is read back unchanged. *)
Theorem saveJob_updateJob_roundtrip (jobs : Store) (r : JobRecord) :
  saveJob jobs r = jobs ++ [r]
  ∧ (Job.id r ∉ (Job.id <$> jobs) →
       saveJob jobs r = upsert jobs r
       ∧ getJobById (saveJob jobs r) (Job.id r) = Some r)
  ∧ (Job.id r ∈ (Job.id <$> jobs) →
       updateJob jobs r = upsert jobs r
       ∧ (∃ k old, jobs !! k = Some old ∧ Job.id old = Job.id r
            ∧ (∀ k' y, jobs !! k' = Some y → k' < k → Job.id y ≠ Job.id r)
            ∧ updateJob jobs r = <[k := r]> jobs)
       ∧ length (updateJob jobs r) = length jobs
       ∧ getJobById (updateJob jobs r) (Job.id r) = Some r).
Proof.
  split_and!; [done | |].
  - intros Hno. split.
    + unfold saveJob. induction jobs as [|x jobs IH]; [done|].
      apply not_elem_of_cons in Hno as [??]. cbn.
      rewrite decide_False by done. by rewrite IH.
    + by apply getJobById_saveJob_new, getJobById_None.
  - intros Hin%getJobById_is_Some. split_and!.
    + induction jobs as [|x jobs IH]; [by destruct Hin|].
      rewrite getJobById_cons in Hin. rewrite updateJob_cons. cbn.
      case_decide; [done | by rewrite IH].
    + destruct Hin as [old Hold].
      destruct (updateJob_present _ _ _ Hold) as (k & ? & ? & ?).
      exists k, old. split_and!; try done.
      by apply getJobById_Some in Hold as [??].
    + apply length_updateJob.
    + by apply getJobById_updateJob_eq.
Qed.

(** [job_a] saved next to [job_b], then overwritten by [job_a_done]. *)
Lemma saveJob_updateJob_roundtrip_witness :
  getJobById (saveJob [job_b] job_a) (Job.id job_a) = Some job_a
  ∧ getJobById (updateJob [job_b; job_a] job_a_done) (Job.id job_a_done)
    = Some job_a_done.
Proof.
  split.
  - apply (saveJob_updateJob_roundtrip [job_b] job_a).
    compute_done.
  - apply (saveJob_updateJob_roundtrip [job_b; job_a] job_a_done).
    compute_done.
Defined.


(** ** Mock mode *)

(** C8.  With [mockMode] set, [submitJob] returns the canned result under
    a freshly generated id, whatever the payload, the settings and the
    store: it issues no request, starts no poll and sets no timer (its
    effect list is empty and the world is unchanged), writes nothing, and
    the result carries circularity_score 67, co2_kg 123.45 and
    recycled_percent 30. *)
Theorem submitJob_mock (cfg : Settings) (jobs : Store) (payload : Obj)
    (now : Time) (rnd : string) (now' : Time) (resp : Fetch SubmitData) :
  submitJob cfg jobs payload true now rnd now' resp
    = (jobs, [], inr (SubmittedMock (generateJobId now rnd) (mock_result now)))
  ∧ (∀ w, exec w (Submit cfg payload true now rnd now' resp) = w)
  ∧ getMockResponse now = inr (MockResponse (mock_result now))
  ∧ obj_get "circularity_score" (mock_result now) = Some (JNum 67)
  ∧ obj_get "co2_kg" (mock_result now) = Some (JNum 123.45)
  ∧ obj_get "recycled_percent" (mock_result now) = Some (JNum 30).
Proof.
  split_and!; try reflexivity.
  intros [jobs' timers inflight]. cbn. by rewrite app_nil_r.
Qed.

(** ** Backoff *)

(** The delay on the path that follows a successful, non-terminal poll is
    the capped one, by definition of [next_delay]; it never decreases with
    the attempt number and never exceeds its value at the cap. *)
Lemma next_delay_mono (n m : nat) :
  (n ≤ m)%nat → (next_delay n <= next_delay m)%Q.
Proof.
  intros Hnm. unfold next_delay, pow.
  apply Qmult_le_l; [reflexivity|].
  apply Qpower_le_compat_l; [lia | discriminate].
Qed.

Lemma next_delay_bounded (n : nat) : (next_delay n <= 15187.5)%Q.
Proof.
  assert (H5 : (next_delay 5 == 15187.5)%Q) by reflexivity.
  rewrite <- H5. unfold next_delay, pow.
  apply Qmult_le_l; [reflexivity|].
  apply Qpower_le_compat_l; [lia | discriminate].
Qed.

Lemma retry_delay_above_cap (n : nat) :
  5 < n → (next_delay n < retry_delay n)%Q.
Proof.
  intros Hn. unfold next_delay, retry_delay, pow.
  apply Qmult_lt_l; [reflexivity|].
  apply Qpower_lt_compat_l; [lia | reflexivity].
Qed.

(** A poll whose status response reports a non-terminal job schedules the
    next attempt after [next_delay]. *)
Lemma poll_active_delay jobs c j now st txt sd rr :
  pc_attempt c < CONFIG.POLL_MAX_ATTEMPTS →
  getJobById jobs (pc_jobId c) = Some j →
  terminal (Job.status j) = false →
  active (st_status sd) = true →
  scheduled (snd (pollJobStatus jobs c now (Responded true st txt (inr sd)) rr))
  = [next_call c]
  ∧ snd (pollJobStatus jobs c now (Responded true st txt (inr sd)) rr)
    = [DoFetch (GetStatus (pc_backendUrl c) (pc_apiKey c)
                  (or_else (Job.backendJobId j) (Job.id j)));
       SetTimeout (next_call c) (next_delay (pc_attempt c))].
Proof.
  intros Hlt Hj Ht Ha. unfold pollJobStatus, poll_begin.
  rewrite bool_decide_eq_false_2 by lia. rewrite Hj, Ht.
  unfold poll_resume, poll_commit. cbn.
  pose proof (active_not_terminal _ Ha) as Hnt. unfold terminal in Hnt.
  apply orb_false_iff in Hnt as [-> ->]. cbn. by rewrite Ha.
Qed.

(** C6, what the code does on the failure path.  When the status request
    of attempt [n] fails, the [catch] block schedules attempt [n+1] after
    [POLL_INTERVAL_MS * BACKOFF_MULTIPLIER^n]: the exponent is not capped,
    and from attempt 6 on the delay is strictly larger than
    [POLL_INTERVAL_MS * BACKOFF_MULTIPLIER^min(n,5)]. *)
Theorem retry_delay_not_capped (jobs : Store) (c : PollCall) (j : JobRecord)
    (now : Time) (sr : Fetch StatusData) (rr : Fetch Obj) :
  5 < pc_attempt c < CONFIG.POLL_MAX_ATTEMPTS →
  getJobById jobs (pc_jobId c) = Some j →
  terminal (Job.status j) = false →
  failed sr = true →
  snd (pollJobStatus jobs c now sr rr)
  = [DoFetch (GetStatus (pc_backendUrl c) (pc_apiKey c)
                (or_else (Job.backendJobId j) (Job.id j)));
     SetTimeout (next_call c)
       (CONFIG.POLL_INTERVAL_MS
        * pow CONFIG.BACKOFF_MULTIPLIER (pc_attempt c))]
  ∧ (CONFIG.POLL_INTERVAL_MS
     * pow CONFIG.BACKOFF_MULTIPLIER (Nat.min (pc_attempt c) 5)
     < CONFIG.POLL_INTERVAL_MS * pow CONFIG.BACKOFF_MULTIPLIER (pc_attempt c))%Q.
Proof.
  intros [H5 H60] Hj Ht Hf. split.
  - unfold pollJobStatus, poll_begin.
    rewrite bool_decide_eq_false_2 by lia. rewrite Hj, Ht.
    unfold poll_resume, poll_caught.
    by destruct sr as [?|[] ? ? [?|?]].
  - by apply retry_delay_above_cap.
Qed.

(** Attempt 6 of [job_a], answered with a 500: the next attempt is set
    22781.25 ms later, not 15187.5 ms. *)
Lemma retry_delay_not_capped_witness :
  snd (pollJobStatus [job_a] (poll_a 6) 5000 server_error server_error)
  = [DoFetch (GetStatus "https://backend.example" "secret" "job-123");
     SetTimeout (poll_a 7) (2000 * pow 1.5 6)]
  ∧ (2000 * pow 1.5 6 == 22781.25)%Q
  ∧ (2000 * pow 1.5 (Nat.min 6 5) == 15187.5)%Q.
Proof.
  split; [|split; reflexivity].
  destruct (retry_delay_not_capped [job_a] (poll_a 6) job_a 5000
              server_error server_error) as [Hbid _].
  - unfold CONFIG.POLL_MAX_ATTEMPTS. simpl. lia.
  - reflexivity.
  - reflexivity.
  - reflexivity.
  - exact Hbid.
Defined.

(** ** Completion of a job *)

(** When the backend reports ['done'] and the result request is rejected,
    or its body does not parse, the exception reaches the [catch] block:
    nothing is written and the poll is retried. *)
Lemma result_rejected_keeps_record jobs c j now st txt sd rr :
  pc_attempt c < CONFIG.POLL_MAX_ATTEMPTS →
  getJobById jobs (pc_jobId c) = Some j →
  terminal (Job.status j) = false →
  st_status sd = "done" →
  (∃ m, rr = Rejected m) ∨ (∃ st' txt' m, rr = Responded true st' txt' (inl m)) →
  fst (pollJobStatus jobs c now (Responded true st txt (inr sd)) rr) = jobs
  ∧ scheduled (snd (pollJobStatus jobs c now (Responded true st txt (inr sd)) rr))
    = [next_call c].
Proof.
  intros Hlt Hj Ht Hd Hrr. unfold pollJobStatus, poll_begin.
  rewrite bool_decide_eq_false_2 by lia. rewrite Hj, Ht.
  unfold poll_resume. rewrite bool_decide_eq_true_2 by done.
  by destruct Hrr as [[m ->]|(st' & txt' & m & ->)].
Qed.

(** When the result request succeeds, the record is written as ['done']
    with the body as its result. *)
Lemma done_with_result jobs c j now st txt sd st' txt' res :
  pc_attempt c < CONFIG.POLL_MAX_ATTEMPTS →
  getJobById jobs (pc_jobId c) = Some j →
  terminal (Job.status j) = false →
  st_status sd = "done" →
  ∃ j', getJobById
          (fst (pollJobStatus jobs c now (Responded true st txt (inr sd))
                  (Responded true st' txt' (inr res)))) (pc_jobId c) = Some j'
        ∧ Job.status j' = "done" ∧ Job.result j' = Some res
        ∧ Job.error j' = Job.error j.
Proof.
  intros Hlt Hj Ht Hd. unfold pollJobStatus, poll_begin.
  rewrite bool_decide_eq_false_2 by lia. rewrite Hj, Ht.
  unfold poll_resume. rewrite bool_decide_eq_true_2 by done.
  unfold poll_commit. cbn [fst]. eexists. split.
  - by apply (getJobById_updateJob_same _ _ j).
  - cbn. by rewrite Hd.
Qed.

(** C1, what the code does.  When the backend reports ['done'] and the
    result request is answered with a non-2xx status, the poll skips the
    assignment of the result and still writes the record: the stored
    record has status ['done'] and the result it had before (none, for a
    job that was never completed), and the poll is not rescheduled. *)
Theorem done_committed_without_result (jobs : Store) (c : PollCall)
    (j : JobRecord) (now : Time) (st : N) (txt : string) (sd : StatusData)
    (st' : N) (txt' : string) (body : string + Obj) :
  pc_attempt c < CONFIG.POLL_MAX_ATTEMPTS →
  getJobById jobs (pc_jobId c) = Some j →
  terminal (Job.status j) = false →
  st_status sd = "done" →
  let j' := polled now sd j in
  let bid := or_else (Job.backendJobId j) (Job.id j) in
  pollJobStatus jobs c now (Responded true st txt (inr sd))
    (Responded false st' txt' body)
  = (updateJob jobs j',
     [DoFetch (GetStatus (pc_backendUrl c) (pc_apiKey c) bid);
      DoFetch (GetResult (pc_backendUrl c) (pc_apiKey c) bid)])
  ∧ getJobById (updateJob jobs j') (pc_jobId c) = Some j'
  ∧ Job.status j' = "done"
  ∧ Job.result j' = Job.result j.
Proof.
  intros Hlt Hj Ht Hd j' bid. split_and!; [| |done|done].
  - unfold pollJobStatus, poll_begin.
    rewrite bool_decide_eq_false_2 by lia. rewrite Hj, Ht.
    unfold poll_resume. rewrite bool_decide_eq_true_2 by done.
    unfold poll_commit. cbn [polled Job.status set_updatedAt set_progress
                             set_status]. by rewrite Hd.
  - by apply (getJobById_updateJob_same _ _ j).
Qed.

(** The first poll of [job_a], told ['done'], its result request answered
    with a 500. *)
Lemma done_committed_without_result_witness :
  (Job.status <$> getJobById [job_a] "job-1000-abc" = Some "pending")
  ∧ ∃ j', getJobById
            (fst (pollJobStatus [job_a] (poll_a 0) 3000 (reports "done")
                    server_error)) "job-1000-abc" = Some j'
          ∧ Job.status j' = "done" ∧ Job.result j' = None.
Proof.
  split; [reflexivity|].
  destruct (done_committed_without_result [job_a] (poll_a 0) job_a 3000
              200 "OK" (mkStatusData "done" None None)
              500 "Internal Server Error" (inl ""))
    as (Hrun & Hget & Hst & Hres).
  - unfold CONFIG.POLL_MAX_ATTEMPTS. simpl. lia.
  - reflexivity.
  - reflexivity.
  - reflexivity.
  - eexists. split_and!; [|exact Hst|exact Hres].
    unfold reports, ok_response, server_error. rewrite Hrun. exact Hget.
Defined.

(** ** Terminal records and cancellation *)

Lemma pollJobStatus_keeps_terminal jobs i j c now sr rr :
  getJobById jobs i = Some j →
  terminal (Job.status j) = true →
  getJobById (fst (pollJobStatus jobs c now sr rr)) i = Some j.
Proof.
  intros Hj Ht. destruct (decide (pc_jobId c = i)) as [<-|Hne].
  - by rewrite (pollJobStatus_terminal _ _ _ _ _ _ Hj Ht).
  - by rewrite pollJobStatus_other.
Qed.

Lemma polls_keep_terminal l jobs i j :
  getJobById jobs i = Some j →
  terminal (Job.status j) = true →
  getJobById (polls jobs l) i = Some j.
Proof.
  revert jobs. induction l as [|v l IH]; intros jobs Hj Ht; [done|].
  cbn. apply IH; [|done]. by apply pollJobStatus_keeps_terminal.
Qed.

Lemma submitJob_other cfg jobs payload mockMode now rnd now' resp i :
  generateJobId now rnd ≠ i →
  getJobById (submitJob cfg jobs payload mockMode now rnd now' resp).1.1 i
  = getJobById jobs i.
Proof.
  intros Hne. unfold submitJob, submit_failed.
  destruct mockMode; [done|].
  destruct (truthy (backendUrl cfg)); [|done].
  destruct (truthy (apiKey cfg)); [|done].
  destruct resp as [?|[] ? ? [?|?]]; cbn [fst];
    by rewrite getJobById_updateJob_ne, getJobById_saveJob_ne.
Qed.

Lemma cancelJob_found jobs i j now :
  getJobById jobs i = Some j →
  cancelJob jobs i now = (updateJob jobs (cancelled now j), inr Cancelled)
  ∧ getJobById (updateJob jobs (cancelled now j)) i = Some (cancelled now j).
Proof.
  intros Hj. unfold cancelJob. rewrite Hj. split; [done|].
  by apply (getJobById_updateJob_same _ _ j).
Qed.

Lemma cancelJob_other jobs i i' now :
  i' ≠ i → getJobById (fst (cancelJob jobs i' now)) i = getJobById jobs i.
Proof.
  intros Hne. unfold cancelJob.
  destruct (getJobById jobs i') as [j'|] eqn:Hj'; [|done].
  cbn [fst]. apply getJobById_updateJob_ne. cbn.
  by apply getJobById_Some in Hj' as [-> _].
Qed.

(** C3, the claim as stated fails: [cancelJob] on a job that is ['done']
    changes the status of its record to ['error']. *)
Lemma cancelJob_rewrites_done :
  Job.status <$> getJobById [job_a_done] "job-1000-abc" = Some "done"
  ∧ Job.status
      <$> getJobById (fst (cancelJob [job_a_done] "job-1000-abc" 9000))
            "job-1000-abc"
    = Some "error".
Proof. split; reflexivity. Qed.

(** C3, amended.  Once the stored record of a job is ['done'] or
    ['error'], a poll of that job that starts afterwards returns at once
    (nothing written, requested or scheduled); no sequence of polls, of
    this or of other jobs, each run to its end, changes the record;
    [getJobStatus] reports it; a submission under another id and a
    cancellation of another job leave it as it is.  [cancelJob] for the
    job itself is unconditional: it rewrites the record to ['error'] with
    ['Cancelled by user'], which keeps the status of an ['error'] record
    and changes that of a ['done'] record. *)
Theorem terminal_record_stable (jobs : Store) (i : string) (j : JobRecord) :
  getJobById jobs i = Some j →
  terminal (Job.status j) = true →
  (∀ c now sr rr, pc_jobId c = i → pollJobStatus jobs c now sr rr = (jobs, []))
  ∧ (∀ l, getJobById (polls jobs l) i = Some j)
  ∧ getJobStatus jobs i
    = inr (JobStatus (Job.status j) (Job.progress j) (Job.result j)
             (Job.error j))
  ∧ (∀ cfg payload mockMode now rnd now' resp,
       generateJobId now rnd ≠ i →
       getJobById (submitJob cfg jobs payload mockMode now rnd now' resp).1.1 i
       = Some j)
  ∧ (∀ i' now, i' ≠ i → getJobById (fst (cancelJob jobs i' now)) i = Some j)
  ∧ (∀ now,
       getJobById (fst (cancelJob jobs i now)) i = Some (cancelled now j)
       ∧ Job.status (cancelled now j) = "error"
       ∧ Job.error (cancelled now j) = Some "Cancelled by user"
       ∧ (Job.status (cancelled now j) = Job.status j
          ↔ Job.status j = "error")).
Proof.
  intros Hj Ht. split_and!.
  - intros c now sr rr <-. by apply (pollJobStatus_terminal _ _ j).
  - intros l. by apply polls_keep_terminal.
  - unfold getJobStatus. by rewrite Hj.
  - intros. by rewrite submitJob_other.
  - intros. by rewrite cancelJob_other.
  - intros now. destruct (cancelJob_found _ _ _ now Hj) as [-> Hget].
    by split_and!.
Qed.

(** A poll of [job_a_done] that would be told ['running']. *)
Lemma terminal_record_stable_witness :
  pollJobStatus [job_b; job_a_done] (poll_a 3) 7000 (reports "running")
    server_error
  = ([job_b; job_a_done], []).
Proof.
  apply (terminal_record_stable [job_b; job_a_done] "job-1000-abc" job_a_done);
    reflexivity.
Defined.

(** ** The poll loop *)

Lemma poll_loop_None n jobs clock backend :
  poll_loop n jobs None clock backend = (jobs, None, []).
Proof. by destruct n. Qed.

Lemma poll_loop_app n m jobs call clock backend :
  poll_loop (n + m) jobs call clock backend
  = let '(jobs1, call1, effs1) := poll_loop n jobs call clock backend in
    let '(jobs2, call2, effs2) := poll_loop m jobs1 call1 clock backend in
    (jobs2, call2, effs1 ++ effs2).
Proof.
  revert jobs call. induction n as [|n IH]; intros jobs call.
  - cbn. by destruct (poll_loop m jobs call clock backend) as [[??]?].
  - destruct call as [c|]; [|by rewrite !poll_loop_None]. cbn.
    destruct (pollJobStatus _ _ _ _ _) as [jobs' effs]. rewrite IH.
    destruct (poll_loop n _ _ _ _) as [[jobs1 call1] effs1].
    destruct (poll_loop m _ _ _ _) as [[jobs2 call2] effs2].
    by rewrite app_assoc.
Qed.

(** One poll of an active job below the attempt limit, answered with
    ['running']. *)
Lemma poll_running jobs c j now st txt sd rr :
  pc_attempt c < CONFIG.POLL_MAX_ATTEMPTS →
  getJobById jobs (pc_jobId c) = Some j →
  active (Job.status j) = true →
  st_status sd = "running" →
  let j' := polled now sd j in
  pollJobStatus jobs c now (Responded true st txt (inr sd)) rr
  = (updateJob jobs j',
     [DoFetch (GetStatus (pc_backendUrl c) (pc_apiKey c)
                 (or_else (Job.backendJobId j) (Job.id j)));
      SetTimeout (next_call c) (next_delay (pc_attempt c))])
  ∧ getJobById (updateJob jobs j') (pc_jobId c) = Some j'.
Proof.
  intros Hlt Hj Ha Hr j'. split.
  - unfold pollJobStatus, poll_begin.
    rewrite bool_decide_eq_false_2 by lia.
    rewrite Hj, (active_not_terminal _ Ha).
    unfold poll_resume, poll_commit.
    cbn [polled Job.status set_updatedAt set_progress set_status].
    by rewrite Hr.
  - by apply (getJobById_updateJob_same _ _ j).
Qed.

(** The invocation that finds the attempt limit reached. *)
Lemma poll_at_limit jobs c j now sr rr :
  (CONFIG.POLL_MAX_ATTEMPTS ≤ pc_attempt c)%nat →
  getJobById jobs (pc_jobId c) = Some j →
  active (Job.status j) = true →
  pollJobStatus jobs c now sr rr = (updateJob jobs (timed_out now j), [])
  ∧ getJobById (updateJob jobs (timed_out now j)) (pc_jobId c)
    = Some (timed_out now j).
Proof.
  intros Hge Hj Ha. split.
  - unfold pollJobStatus, poll_begin, poll_timeout.
    rewrite bool_decide_eq_true_2 by lia. by rewrite Hj, Ha.
  - by apply (getJobById_updateJob_same _ _ j).
Qed.

Lemma at_attempt_self c : at_attempt c (pc_attempt c) = c.
Proof. by destruct c. Qed.

(** As long as the limit is not reached the loop goes on: [n] invocations
    make [n] status requests, leave the job active and the next attempt
    scheduled. *)
Lemma poll_loop_running n : ∀ jobs c j clock backend,
  (pc_attempt c + n ≤ CONFIG.POLL_MAX_ATTEMPTS)%nat →
  getJobById jobs (pc_jobId c) = Some j →
  active (Job.status j) = true →
  always_running backend →
  ∃ jobs' j' effs,
    poll_loop n jobs (Some c) clock backend
    = (jobs', Some (at_attempt c (pc_attempt c + n)), effs)
    ∧ getJobById jobs' (pc_jobId c) = Some j'
    ∧ active (Job.status j') = true
    ∧ length (requests effs) = n.
Proof.
  induction n as [|n IH]; intros jobs c j clock backend Hle Hj Ha Hb.
  - exists jobs, j, []. split_and!; try done. cbn.
    by rewrite Nat.add_0_r, at_attempt_self.
  - destruct (Hb (pc_attempt c)) as (st & txt & sd & Hs & Hr).
    destruct (poll_running jobs c j (clock (pc_attempt c)) st txt sd
                (snd (backend (pc_attempt c)))) as [Hrun Hget]; try done; [lia|].
    destruct (IH _ (next_call c) _ clock backend ltac:(cbn; lia) Hget
                ltac:(cbn; by rewrite Hr) Hb) as (jobs' & j' & effs & Hloop & Hj' & Ha' & Hn).
    assert (Hc : at_attempt (next_call c) (pc_attempt (next_call c) + n)
                 = at_attempt c (pc_attempt c + S n)).
    { unfold at_attempt, next_call. cbn. f_equal. lia. }
    rewrite Hc in Hloop.
    cbn [poll_loop]. rewrite Hs, Hrun. cbn [scheduled head].
    rewrite Hloop. eexists _, _, _.
    split_and!; [reflexivity|exact Hj'|exact Ha'|].
    cbn. by rewrite Hn.
Qed.

(** C5.  While every status response reports ['running'], the loop of a
    job that is ['pending'] or ['running'], started at attempt 0 and left
    alone, makes one status request per invocation and leaves the job
    non-terminal with the next attempt scheduled for each of the first
    [POLL_MAX_ATTEMPTS] invocations; the next invocation makes no request,
    writes status ['error'] with the timeout message and schedules
    nothing.  So the loop ends after exactly [POLL_MAX_ATTEMPTS] status
    requests, however many further invocations are allowed. *)
Theorem poll_loop_timeout (jobs : Store) (c : PollCall) (j : JobRecord)
    (clock : nat → Time) (backend : nat → Fetch StatusData * Fetch Obj) :
  pc_attempt c = 0 →
  getJobById jobs (pc_jobId c) = Some j →
  active (Job.status j) = true →
  always_running backend →
  (∀ n, (n ≤ CONFIG.POLL_MAX_ATTEMPTS)%nat →
     ∃ jobs' j' effs,
       poll_loop n jobs (Some c) clock backend
       = (jobs', Some (at_attempt c n), effs)
       ∧ getJobById jobs' (pc_jobId c) = Some j'
       ∧ active (Job.status j') = true
       ∧ length (requests effs) = n)
  ∧ (∀ n, CONFIG.POLL_MAX_ATTEMPTS < n →
     ∃ jobs' j' effs,
       poll_loop n jobs (Some c) clock backend = (jobs', None, effs)
       ∧ getJobById jobs' (pc_jobId c) = Some j'
       ∧ Job.status j' = "error"
       ∧ Job.error j' = Some "Timeout: Job did not complete in time"
       ∧ length (requests effs) = CONFIG.POLL_MAX_ATTEMPTS).
Proof.
  intros H0 Hj Ha Hb. split.
  - intros n Hn.
    destruct (poll_loop_running n jobs c j clock backend) as
      (jobs' & j' & effs & Hloop & ?); try done; [lia|].
    rewrite H0 in Hloop. eauto.
  - intros n Hn.
    destruct (poll_loop_running CONFIG.POLL_MAX_ATTEMPTS jobs c j clock backend)
      as (jobs' & j' & effs & Hloop & Hj' & Ha' & Hlen); try done; [lia|].
    rewrite H0 in Hloop.
    replace n with (CONFIG.POLL_MAX_ATTEMPTS + S (n - S CONFIG.POLL_MAX_ATTEMPTS))
      by lia.
    rewrite poll_loop_app, Hloop. cbn [poll_loop].
    set (c' := at_attempt c (0 + CONFIG.POLL_MAX_ATTEMPTS)).
    destruct (poll_at_limit jobs' c' j' (clock (pc_attempt c'))
                (fst (backend (pc_attempt c'))) (snd (backend (pc_attempt c'))))
      as [Hrun Hget]; [cbn; lia|done|done|].
    rewrite Hrun. cbn [scheduled head]. rewrite poll_loop_None.
    eexists _, _, _. split_and!; [done|exact Hget|done|done|].
    by rewrite app_nil_r.
Qed.

(** The loop of [job_a] against [running_backend]. *)
Lemma poll_loop_timeout_witness :
  always_running running_backend
  ∧ (∃ jobs' j' effs,
       poll_loop 60 [job_a] (Some (poll_a 0)) sample_clock running_backend
       = (jobs', Some (poll_a 60), effs)
       ∧ getJobById jobs' "job-1000-abc" = Some j'
       ∧ active (Job.status j') = true
       ∧ length (requests effs) = 60)
  ∧ (∃ jobs' j' effs,
       poll_loop 61 [job_a] (Some (poll_a 0)) sample_clock running_backend
       = (jobs', None, effs)
       ∧ getJobById jobs' "job-1000-abc" = Some j'
       ∧ Job.status j' = "error"
       ∧ Job.error j' = Some "Timeout: Job did not complete in time"
       ∧ length (requests effs) = 60).
Proof.
  assert (Hb : always_running running_backend).
  { intros k. by eexists _, _, _. }
  destruct (poll_loop_timeout [job_a] (poll_a 0) job_a sample_clock
              running_backend eq_refl eq_refl eq_refl Hb) as [Hrun Hend].
  split_and!; [exact Hb | |].
  - apply (Hrun 60). unfold CONFIG.POLL_MAX_ATTEMPTS. lia.
  - apply (Hend 61). unfold CONFIG.POLL_MAX_ATTEMPTS. lia.
Defined.

(** ** Reachable worlds *)

Lemma Forall_updateJob (P : JobRecord → Prop) jobs r :
  Forall P jobs → P r → Forall P (updateJob jobs r).
Proof.
  intros Hall Hr. induction Hall as [|x jobs Hx Hall IH]; [done|].
  rewrite updateJob_cons. case_decide; by constructor.
Qed.

Lemma Forall_getJobById (P : JobRecord → Prop) jobs i j :
  Forall P jobs → getJobById jobs i = Some j → P j.
Proof.
  intros Hall [_ Hin]%getJobById_Some.
  rewrite Forall_forall in Hall. by apply Hall.
Qed.

Lemma error_ok_failed j now m :
  error_ok (set_updatedAt now (set_error (Some m) (set_status "error" j))).
Proof. split; cbn; [by eexists | done]. Qed.

(** The record a poll writes has its [error] property in order, provided
    the job object the poll holds had and was not terminal. *)
Lemma poll_resume_error_ok jobs c job bid now sr rr :
  Forall error_ok jobs →
  error_ok job →
  terminal (Job.status job) = false →
  Forall error_ok (fst (poll_resume jobs c job bid now sr rr)).
Proof.
  intros Hall [_ Hnone] Ht.
  assert (Herr : Job.error job = None).
  { apply Hnone. intros He. by rewrite He in Ht. }
  unfold poll_resume, poll_commit, poll_caught.
  destruct sr as [?|[] ? ? [?|sd]]; cbn [fst]; try done.
  repeat case_bool_decide; [destruct rr as [?|[] ? ? [?|?]]| |];
    cbn [fst]; try done; apply Forall_updateJob; try done;
    split; cbn; intros; try done; try congruence; by eexists.
Qed.

(** The part of the record invariant that holds in every reachable world:
    the [error] property is set on the stored records that are ['error']
    and on no other, so in particular on no record that is ['done']. *)
Lemma reachable_error_ok w :
  reachable w →
  Forall error_ok (w_jobs w)
  ∧ Forall (λ p, error_ok (pd_job p) ∧ terminal (Job.status (pd_job p)) = false)
      (w_inflight w).
Proof.
  intros [ops ->]. unfold run.
  induction ops as [|op ops IH] using rev_ind; [by split; constructor|].
  rewrite foldl_app. cbn [foldl].
  destruct IH as [Hjobs Hfly]. set (w := foldl exec initial ops) in *.
  destruct op as [cfg payload mockMode now rnd now' resp|i|i now|k now
                 |k now sr rr|i|]; cbn [exec].
  - split; [|by destruct (submitJob _ _ _ _ _ _ _ _) as [[??]?]].
    unfold submitJob, submit_failed.
    destruct mockMode; [done|].
    destruct (truthy (backendUrl cfg)); [|done].
    destruct (truthy (apiKey cfg)); [|done].
    assert (Hsaved : ∀ j, error_ok j →
              Forall error_ok
                (updateJob (saveJob (w_jobs w)
                   (new_job (generateJobId now rnd) payload now)) j)).
    { intros j Hj. apply Forall_updateJob; [|done].
      apply Forall_app. split; [done|]. by repeat constructor. }
    destruct resp as [?|[] ? ? [?|?]]; cbn [w_jobs];
      apply Hsaved; try apply error_ok_failed. by split.
  - done.
  - split; [|done]. cbn [w_jobs]. unfold cancelJob.
    destruct (getJobById (w_jobs w) i) as [j|]; [|done].
    cbn [fst]. apply Forall_updateJob; [done | apply error_ok_failed].
  - destruct (w_timers w !! k) as [c|]; [|done].
    unfold poll_begin, poll_timeout. case_bool_decide.
    + split; [|done]. cbn [w_jobs].
      destruct (getJobById (w_jobs w) (pc_jobId c)) as [j|]; [|done].
      destruct (active _); [|done].
      apply Forall_updateJob; [done | apply error_ok_failed].
    + destruct (getJobById (w_jobs w) (pc_jobId c)) as [j|] eqn:Hj; [|done].
      destruct (terminal (Job.status j)) eqn:Ht; [done|].
      split; [done|]. cbn [w_inflight]. apply Forall_app. split; [done|].
      apply Forall_singleton. split; [|done].
      by apply (Forall_getJobById _ _ _ _ Hjobs Hj).
  - destruct (w_inflight w !! k) as [p|] eqn:Hp; [|done].
    apply (Forall_lookup_1 _ _ _ _ Hfly) in Hp as [Hok Ht].
    pose proof (poll_resume_error_ok (w_jobs w) (pd_call p) (pd_job p)
                  (pd_backendJobId p) now sr rr Hjobs Hok Ht) as Hres.
    destruct (poll_resume _ _ _ _ _ _ _) as [jobs effs].
    split; [done|]. cbn [w_inflight]. by apply Forall_delete.
  - split; [|done]. cbn [w_jobs]. unfold deleteJob.
    rewrite Forall_forall in Hjobs. apply Forall_forall.
    intros x [_ Hx]%list_elem_of_filter. by apply Hjobs.
  - by split.
Qed.

(** C2, what the code does.  The world in which a job is stored as
    ['done'] with no result is reachable: submit, let the first poll be
    told ['done'] and its result request fail with a 500.  No poll
    remains scheduled or in flight, so the record stays as it is. *)
Theorem reachable_done_without_result :
  reachable (mkWorld [job_a_stuck] [] [])
  ∧ run lost_result_run initial = mkWorld [job_a_stuck] [] []
  ∧ Job.status job_a_stuck = "done"
  ∧ Job.result job_a_stuck = None
  ∧ Job.error job_a_stuck = None.
Proof.
  split_and!; try reflexivity. by exists lost_result_run.
Qed.

Lemma reachable_error_field w j :
  reachable w → j ∈ w_jobs w →
  (Job.status j = "error" → is_Some (Job.error j))
  ∧ (Job.status j = "done" → Job.error j = None).
Proof.
  intros [Hall _]%reachable_error_ok Hin.
  rewrite Forall_forall in Hall. destruct (Hall j Hin) as [He Hn].
  split; [done|]. intros Hd. apply Hn. by rewrite Hd.
Qed.

(** ** Cancellation while a poll is in flight *)

(** What a poll that has reached its status request knows. *)
Lemma poll_begin_InFlight jobs c now j bid :
  poll_begin jobs c now = InFlight j bid →
  pc_attempt c < CONFIG.POLL_MAX_ATTEMPTS
  ∧ getJobById jobs (pc_jobId c) = Some j
  ∧ terminal (Job.status j) = false
  ∧ bid = or_else (Job.backendJobId j) (Job.id j).
Proof.
  unfold poll_begin. case_bool_decide; [done|].
  destruct (getJobById jobs (pc_jobId c)) as [j'|]; [|done].
  destruct (terminal (Job.status j')) eqn:Ht; [done|].
  intros [= <- <-]. split_and!; try done. lia.
Qed.

(** With polls of any jobs interleaved at their status requests, a
    terminal record stays as it is as long as no poll of that job was in
    flight when the record became terminal. *)
Lemma interleaved_polls_keep_terminal ops : ∀ w i j,
  getJobById (w_jobs w) i = Some j →
  terminal (Job.status j) = true →
  quiet i w →
  forallb poll_step ops = true →
  getJobById (w_jobs (run ops w)) i = Some j ∧ quiet i (run ops w).
Proof.
  unfold run.
  induction ops as [|op ops IH]; intros w i j Hj Ht Hq Hops; [done|].
  cbn in Hops. apply andb_true_iff in Hops as [Hop Hops].
  cbn [foldl]. apply IH; try done;
    destruct op as [| | |k now|k now sr rr| |]; try done; cbn [exec].
  - destruct (w_timers w !! k) as [c|]; [|done].
    destruct (poll_begin (w_jobs w) c now) as [jobs|job bid] eqn:Hb; [|done].
    cbn [w_jobs]. unfold poll_begin in Hb. case_bool_decide.
    + injection Hb as <-. destruct (decide (pc_jobId c = i)) as [->|Hne].
      * unfold poll_timeout. by rewrite Hj, (terminal_not_active _ Ht).
      * by rewrite poll_timeout_other.
    + destruct (getJobById (w_jobs w) (pc_jobId c)) as [j0|]; [|congruence].
      destruct (terminal (Job.status j0)); congruence.
  - destruct (w_inflight w !! k) as [p|] eqn:Hp; [|done].
    pose proof (poll_resume_other (w_jobs w) (pd_call p) (pd_job p)
                  (pd_backendJobId p) now sr rr i
                  (Forall_lookup_1 _ _ _ _ Hq Hp)) as Hres.
    destruct (poll_resume _ _ _ _ _ _ _) as [jobs effs].
    cbn [w_jobs]. cbn [fst] in Hres. by rewrite Hres.
  - destruct (w_timers w !! k) as [c|]; [|done].
    destruct (poll_begin (w_jobs w) c now) as [jobs|job bid] eqn:Hb; [done|].
    unfold quiet. cbn [w_inflight]. apply Forall_app. split; [done|].
    apply Forall_singleton. cbn [pd_job].
    apply poll_begin_InFlight in Hb as (_ & Hc & Hnt & _).
    intros <-. destruct (getJobById_Some _ _ _ Hc) as [Hid _].
    rewrite Hid, Hc in Hj. injection Hj as ->. congruence.
  - destruct (w_inflight w !! k) as [p|] eqn:Hp; [|done].
    destruct (poll_resume _ _ _ _ _ _ _) as [jobs effs].
    unfold quiet. cbn [w_inflight]. by apply Forall_delete.
Qed.

(** C9, what the code does.  A poll reads its job object before the
    status request and writes that object back after the response, without
    reading the store again.  If the job is cancelled in between, the
    response is not discarded: with a response that reports a non-terminal
    status, the cancelled record is overwritten by the job object of the
    poll (status as reported, no error) and the next attempt is
    scheduled. *)
Theorem inflight_response_overwrites_cancel (jobs : Store) (c : PollCall)
    (j : JobRecord) (bid : string) (now1 now2 now3 : Time) (st : N)
    (txt : string) (sd : StatusData) (rr : Fetch Obj) :
  poll_begin jobs c now1 = InFlight j bid →
  active (st_status sd) = true →
  let jobs1 := fst (cancelJob jobs (pc_jobId c) now2) in
  let j' := polled now3 sd j in
  getJobById jobs1 (pc_jobId c) = Some (cancelled now2 j)
  ∧ poll_resume jobs1 c j bid now3 (Responded true st txt (inr sd)) rr
    = (updateJob jobs1 j',
       [DoFetch (GetStatus (pc_backendUrl c) (pc_apiKey c) bid);
        SetTimeout (next_call c) (next_delay (pc_attempt c))])
  ∧ getJobById (updateJob jobs1 j') (pc_jobId c) = Some j'
  ∧ Job.status j' = st_status sd
  ∧ Job.error j' = Job.error j.
Proof.
  intros (Hlt & Hj & Ht & ->)%poll_begin_InFlight Ha jobs1 j'.
  destruct (cancelJob_found _ _ _ now2 Hj) as [Hc Hget].
  subst jobs1. rewrite Hc. cbn [fst]. split_and!; try done.
  - unfold poll_resume, poll_commit.
    pose proof (active_not_terminal _ Ha) as Hnt. unfold terminal in Hnt.
    apply orb_false_iff in Hnt as [-> ->]. cbn. by rewrite Ha.
  - by apply (getJobById_updateJob_same _ _ (cancelled now2 j)).
Qed.

(** [cancel_race_run], followed by the arrival of the status response. *)
Lemma inflight_response_overwrites_cancel_witness :
  (Job.status <$> getJobById (w_jobs (run cancel_race_run initial)) "job-1000-abc"
   = Some "error")
  ∧ w_inflight (run cancel_race_run initial)
    = [mkPending (poll_a 0) job_a "job-123"]
  ∧ run (cancel_race_run ++ [Respond 0 3000 (reports "running") server_error])
      initial
    = mkWorld [set_updatedAt 3000 (set_status "running" job_a)] [poll_a 1] [].
Proof.
  split_and!; [reflexivity | reflexivity |].
  destruct (inflight_response_overwrites_cancel [job_a] (poll_a 0) job_a
              "job-123" 2000 2500 3000 200 "OK"
              (mkStatusData "running" None None) server_error eq_refl eq_refl)
    as (_ & Hrun & _).
  unfold run. rewrite foldl_app. cbn [foldl].
  change (foldl exec initial cancel_race_run)
    with (mkWorld (fst (cancelJob [job_a] (pc_jobId (poll_a 0)) 2500)) []
            [mkPending (poll_a 0) job_a "job-123"]).
  cbn [exec w_inflight w_jobs w_timers lookup list_lookup pd_call pd_job
       pd_backendJobId].
  unfold reports, ok_response. rewrite Hrun. reflexivity.
Defined.

(** ** The two halves of a submission *)

(** A submission run without interruption is its first half followed by
    its second half on the store the first half left. *)
Lemma submitJob_split cfg jobs payload mockMode now rnd now' resp :
  submitJob cfg jobs payload mockMode now rnd now' resp
  = match submit_begin cfg jobs payload mockMode now rnd with
    | Ended out => (jobs, [], out)
    | Awaiting jobs' p => submit_resume jobs' p now' resp
    end.
Proof.
  unfold submitJob, submit_begin. destruct mockMode; [done|].
  destruct (truthy (backendUrl cfg)); [|done].
  destruct (truthy (apiKey cfg)); [|done].
  by destruct resp as [?|[] ? ? [?|?]].
Qed.

(** What a submission that has reached its POST knows. *)
Lemma submit_begin_Awaiting cfg jobs payload mockMode now rnd jobs' p :
  submit_begin cfg jobs payload mockMode now rnd = Awaiting jobs' p →
  mockMode = false
  ∧ ps_job p = new_job (generateJobId now rnd) payload now
  ∧ truthy (backendUrl cfg) = Some (ps_backendUrl p)
  ∧ truthy (apiKey cfg) = Some (ps_apiKey p)
  ∧ jobs' = saveJob jobs (ps_job p).
Proof.
  unfold submit_begin. destruct mockMode; [done|].
  destruct (truthy (backendUrl cfg)); [|done].
  destruct (truthy (apiKey cfg)); [|done].
  by intros [= <- <-].
Qed.

Lemma getJobById_saveJob_is_Some jobs r :
  is_Some (getJobById (saveJob jobs r) (Job.id r)).
Proof.
  apply getJobById_is_Some. unfold saveJob. rewrite fmap_app.
  apply elem_of_app. right. cbn. left.
Qed.

(** The second half of a submission only ever writes the record of its
    own job. *)
Lemma submit_resume_other jobs p now' resp i :
  Job.id (ps_job p) ≠ i →
  getJobById (submit_resume jobs p now' resp).1.1 i = getJobById jobs i.
Proof.
  intros Hne. unfold submit_resume, submit_failed.
  destruct resp as [?|[] ? ? [?|?]]; cbn [fst];
    by apply getJobById_updateJob_ne.
Qed.

(** It starts no poll, or the first poll of its own job. *)
Lemma submit_resume_scheduled jobs p now' resp :
  scheduled (submit_resume jobs p now' resp).1.2 = []
  ∨ scheduled (submit_resume jobs p now' resp).1.2
    = [mkPollCall (Job.id (ps_job p)) (ps_backendUrl p) (ps_apiKey p) 0].
Proof.
  unfold submit_resume, submit_failed.
  destruct resp as [?|[] ? ? [?|?]]; cbn; auto.
Qed.

(** An accepted submission writes its job object, ['pending'] and without
    an error, over whatever record is stored under the id. *)
Lemma submit_resume_accepted jobs p now' st txt data j0 :
  getJobById jobs (Job.id (ps_job p)) = Some j0 →
  let bid := or_else (sub_job_id data) (Job.id (ps_job p)) in
  let job :=
    set_updatedAt now'
      (set_backendJobId (Some bid) (set_status "pending" (ps_job p))) in
  submit_resume jobs p now' (Responded true st txt (inr data))
  = (updateJob jobs job,
     [DoFetch (PostSubmit (ps_backendUrl p) (ps_apiKey p)
                 (Job.payload (ps_job p)));
      StartPoll (mkPollCall (Job.id (ps_job p)) (ps_backendUrl p)
                   (ps_apiKey p) 0)],
     inr (Submitted (Job.id (ps_job p)) bid))
  ∧ getJobById (updateJob jobs job) (Job.id (ps_job p)) = Some job.
Proof.
  intros Hj bid job. split; [done|].
  change (getJobById (updateJob jobs job) (Job.id job) = Some job).
  apply getJobById_updateJob_eq.
  change (Job.id job) with (Job.id (ps_job p)). by rewrite Hj.
Qed.

(** ** Polls after a cancellation *)

(** The rest of a poll that is told ['pending'] or ['running']: the job
    object of the poll is written and the next attempt scheduled, whatever
    the store holds by then. *)
Lemma poll_resume_active jobs c j bid now st txt sd rr :
  active (st_status sd) = true →
  poll_resume jobs c j bid now (Responded true st txt (inr sd)) rr
  = (updateJob jobs (polled now sd j),
     [DoFetch (GetStatus (pc_backendUrl c) (pc_apiKey c) bid);
      SetTimeout (next_call c) (next_delay (pc_attempt c))]).
Proof.
  intros Ha. unfold poll_resume, poll_commit.
  pose proof (active_not_terminal _ Ha) as Hnt. unfold terminal in Hnt.
  apply orb_false_iff in Hnt as [-> ->]. cbn. by rewrite Ha.
Qed.

(** A poll that finds its job not terminal stores the status it is told,
    unless it is told ['done'] and the result request throws. *)
Lemma poll_stores_status jobs c j now st txt sd rr :
  pc_attempt c < CONFIG.POLL_MAX_ATTEMPTS →
  getJobById jobs (pc_jobId c) = Some j →
  terminal (Job.status j) = false →
  st_status sd ≠ "done" ∨ failed rr = false →
  Job.status
    <$> getJobById
          (fst (pollJobStatus jobs c now (Responded true st txt (inr sd)) rr))
          (pc_jobId c)
  = Some (st_status sd).
Proof.
  intros Hlt Hj Ht Hsd. unfold pollJobStatus, poll_begin.
  rewrite bool_decide_eq_false_2 by lia. rewrite Hj, Ht.
  unfold poll_resume, poll_commit. case_bool_decide as Hd.
  - destruct Hsd as [?|Hf]; [done|].
    destruct rr as [?|[] ? ? [?|?]]; try done. cbn [fst].
    by rewrite (getJobById_updateJob_same _ _ j _ Hj).
  - case_bool_decide; cbn [fst];
      by rewrite (getJobById_updateJob_same _ _ j _ Hj).
Qed.

(** C4, what the code does.  [cancelJob] on a stored job that is
    ['pending'] or ['running'] succeeds and rewrites its record to status
    ['error'] with error ['Cancelled by user'], and on an id that no stored
    record carries it throws ['Job not found'] and leaves the store as it
    is.  But the cancellation does not stop the polling of the job.  The
    tasks that wait for a response hold the job object they read before
    their request and write it back without reading the store again:

    - a poll that waits for its status response when the job is cancelled
      and is then told ['pending'] or ['running'] writes its job object
      over the cancelled record and sets the timer of the next attempt;
      that next poll starts after the cancellation, finds a record that is
      not terminal, and stores the status it is told;

    - a submission that waits for the response to its POST when the job is
      cancelled writes its job object, ['pending'], over the cancelled
      record and starts the first poll; that poll starts after the
      cancellation and stores the status it is told. *)
Theorem cancel_does_not_stop_polling (jobs : Store) (i : string) (now : Time) :
  (∀ j, getJobById jobs i = Some j →
        active (Job.status j) = true →
        cancelJob jobs i now = (updateJob jobs (cancelled now j), inr Cancelled)
        ∧ getJobById (fst (cancelJob jobs i now)) i = Some (cancelled now j)
        ∧ Job.status (cancelled now j) = "error"
        ∧ Job.error (cancelled now j) = Some "Cancelled by user")
  ∧ (i ∉ (Job.id <$> jobs) → cancelJob jobs i now = (jobs, inl "Job not found"))
  ∧ (∀ c j bid now1 now3 now4 st txt sd rr st' txt' sd' rr',
       pc_jobId c = i →
       poll_begin jobs c now1 = InFlight j bid →
       S (pc_attempt c) < CONFIG.POLL_MAX_ATTEMPTS →
       active (st_status sd) = true →
       st_status sd' ≠ "done" ∨ failed rr' = false →
       let jobs1 := fst (cancelJob jobs i now) in
       let late :=
         poll_resume jobs1 c j bid now3 (Responded true st txt (inr sd)) rr in
       let next :=
         pollJobStatus (fst late) (next_call c) now4
           (Responded true st' txt' (inr sd')) rr' in
       Job.status <$> getJobById jobs1 i = Some "error"
       ∧ Job.status <$> getJobById (fst late) i = Some (st_status sd)
       ∧ scheduled (snd late) = [next_call c]
       ∧ Job.status <$> getJobById (fst next) i = Some (st_status sd'))
  ∧ (∀ cfg jobs0 payload mockMode now0 rnd p now3 st txt data now4 st' txt'
       sd' rr',
       submit_begin cfg jobs0 payload mockMode now0 rnd = Awaiting jobs p →
       Job.id (ps_job p) = i →
       st_status sd' ≠ "done" ∨ failed rr' = false →
       let jobs1 := fst (cancelJob jobs i now) in
       let late :=
         submit_resume jobs1 p now3 (Responded true st txt (inr data)) in
       let first := mkPollCall i (ps_backendUrl p) (ps_apiKey p) 0 in
       let polled_once :=
         pollJobStatus late.1.1 first now4
           (Responded true st' txt' (inr sd')) rr' in
       Job.status <$> getJobById jobs1 i = Some "error"
       ∧ Job.status <$> getJobById late.1.1 i = Some "pending"
       ∧ scheduled late.1.2 = [first]
       ∧ Job.status <$> getJobById (fst polled_once) i = Some (st_status sd')).
Proof.
  split_and!.
  - intros j Hj _. destruct (cancelJob_found _ _ _ now Hj) as [-> Hget].
    by split_and!.
  - intros Hno%getJobById_None. unfold cancelJob. by rewrite Hno.
  - intros c j bid now1 now3 now4 st txt sd rr st' txt' sd' rr' <-
      (_ & Hj & _ & _)%poll_begin_InFlight Hlt Ha Hsd' jobs1 late next.
    destruct (cancelJob_found _ _ _ now Hj) as [Hc Hget].
    subst next late jobs1. rewrite Hc. cbn [fst].
    rewrite (poll_resume_active _ _ _ _ _ _ _ _ _ Ha). cbn [fst snd scheduled].
    assert (Hlate : getJobById (updateJob (updateJob jobs (cancelled now j))
                                 (polled now3 sd j)) (pc_jobId c)
                    = Some (polled now3 sd j)).
    { by apply (getJobById_updateJob_same _ _ (cancelled now j)). }
    split_and!; [by rewrite Hget | by rewrite Hlate | done |].
    apply (poll_stores_status _ (next_call c) (polled now3 sd j));
      [cbn; lia | done | | done].
    by apply active_not_terminal.
  - intros cfg jobs0 payload mockMode now0 rnd p now3 st txt data now4 st' txt'
      sd' rr' (_ & _ & _ & _ & ->)%submit_begin_Awaiting <- Hsd'
      jobs1 late first polled_once.
    destruct (getJobById_saveJob_is_Some jobs0 (ps_job p)) as [j0 Hj0].
    destruct (cancelJob_found _ _ _ now Hj0) as [Hc Hget].
    assert (Hid : Job.id (cancelled now j0) = Job.id (ps_job p)).
    { cbn. by apply getJobById_Some in Hj0 as [-> _]. }
    rewrite <- Hid in Hget at 1.
    destruct (submit_resume_accepted _ p now3 st txt data _
                (eq_trans (f_equal _ (eq_sym Hid)) Hget)) as [Hrun Hstored].
    subst polled_once late jobs1. rewrite Hc. cbn [fst].
    rewrite Hid in Hget. rewrite Hrun. cbn [fst snd scheduled].
    split_and!; [by rewrite Hget | by rewrite Hstored | done |].
    by apply (poll_stores_status _ first _ now4 st' txt' sd' rr'
                ltac:(cbn; unfold CONFIG.POLL_MAX_ATTEMPTS; lia) Hstored).
Qed.

(** [job_a] cancelled while its first poll waits for the status response,
    which then reports ['running']: the second poll, started after the
    cancellation, stores ['done'].  And [job_a] cancelled while its POST is
    in flight: the first poll stores ['running']. *)
Lemma cancel_does_not_stop_polling_witness :
  Job.status
    <$> getJobById
          (fst (pollJobStatus
                  (fst (poll_resume
                          (fst (cancelJob [job_a] "job-1000-abc" 2500))
                          (poll_a 0) job_a "job-123" 3000
                          (reports "running") server_error))
                  (poll_a 1) 6000 (reports "done")
                  (ok_response (mock_result 0))))
          "job-1000-abc"
  = Some "done"
  ∧ Job.status
      <$> getJobById
            (fst (pollJobStatus
                    (submit_resume
                       (fst (cancelJob [ps_job posting_a] "job-1000-abc" 1200))
                       posting_a 1500 accepted_a).1.1
                    (poll_a 0) 3000 (reports "running") server_error))
            "job-1000-abc"
    = Some "running".
Proof.
  split.
  - destruct (proj1 (proj2 (proj2
                (cancel_does_not_stop_polling [job_a] "job-1000-abc" 2500)))
                (poll_a 0) job_a "job-123" 2000%N 3000%N 6000%N 200%N "OK"
                (mkStatusData "running" None None) server_error 200%N "OK"
                (mkStatusData "done" None None) (ok_response (mock_result 0))
                eq_refl eq_refl)
      as (_ & _ & _ & Hnext).
    + unfold CONFIG.POLL_MAX_ATTEMPTS. simpl. lia.
    + reflexivity.
    + right. reflexivity.
    + exact Hnext.
  - destruct (proj2 (proj2 (proj2
                (cancel_does_not_stop_polling [ps_job posting_a]
                   "job-1000-abc" 1200)))
                sample_settings [] sample_payload false 1000%N "abc" posting_a
                1500%N 200%N "OK" (mkSubmitData (Some "job-123")) 3000%N
                200%N "OK"
                (mkStatusData "running" None None) server_error
                eq_refl eq_refl)
      as (_ & _ & _ & Hfirst).
    + left. discriminate.
    + exact Hfirst.
Defined.

(** The second case as a run of the extension: submitted, cancelled while
    the POST is in flight, accepted by the backend, and the first poll
    told ['running'].  The record is ['running'] and the second poll is
    scheduled. *)
Lemma cancel_during_post_overwritten :
  s_jobs (steps [submit_a_sent; EvCancel "job-1000-abc" 1200] idle)
  = [cancelled 1200 (ps_job posting_a)]
  ∧ s_posts (steps [submit_a_sent; EvCancel "job-1000-abc" 1200] idle)
    = [posting_a]
  ∧ steps cancel_during_post_run idle
    = mkSystem [set_updatedAt 3000 (set_status "running"
                  (set_updatedAt 1500 job_a))]
        [] [poll_a 1] [].
Proof. split_and!; reflexivity. Qed.

(** * Further properties *)

(** ** Submission *)

Lemma obj_get_set_eq k v (o : Obj) : obj_get k (obj_set k v o) = Some v.
Proof.
  induction o as [|[k' v'] o IH]; cbn.
  - by rewrite decide_True.
  - destruct (decide (k' = k)) as [->|Hne]; cbn.
    + by rewrite decide_True.
    + by rewrite decide_False.
Qed.

Lemma obj_get_set_ne k k' v (o : Obj) :
  k ≠ k' → obj_get k' (obj_set k v o) = obj_get k' o.
Proof.
  intros Hne. induction o as [|[k0 v0] o IH]; cbn.
  - by rewrite decide_False.
  - destruct (decide (k0 = k)) as [->|Hne0]; cbn.
    + by rewrite !decide_False.
    + by rewrite IH.
Qed.

Lemma getJobById_saveJob_self jobs r :
  is_Some (getJobById (saveJob jobs r) (Job.id r)).
Proof.
  apply getJobById_is_Some. unfold saveJob. rewrite fmap_app.
  apply elem_of_app. right. cbn. left.
Qed.

(** A record saved and then updated under its own id is the one read
    back, and the ids of the store are the old ones followed by the new
    one. *)
Lemma save_then_update jobs r r' :
  Job.id r' = Job.id r →
  getJobById (updateJob (saveJob jobs r) r') (Job.id r) = Some r'
  ∧ Job.id <$> updateJob (saveJob jobs r) r' = (Job.id <$> jobs) ++ [Job.id r].
Proof.
  intros Hid. split.
  - rewrite <- Hid. apply getJobById_updateJob_eq. rewrite Hid.
    apply getJobById_saveJob_self.
  - rewrite ids_updateJob. unfold saveJob. by rewrite fmap_app.
Qed.

(** X1.  Without mock mode, a submission with no backend URL, or with a
    URL and no API key (missing or empty), throws the configuration
    message before anything else happens: the store is unchanged and no
    request is sent.  The URL is checked first. *)
Theorem submitJob_not_configured (cfg : Settings) (jobs : Store)
    (payload : Obj) (now : Time) (rnd : string) (now' : Time)
    (resp : Fetch SubmitData) :
  truthy (backendUrl cfg) = None ∨ truthy (apiKey cfg) = None →
  submitJob cfg jobs payload false now rnd now' resp
  = (jobs, [],
     inl (match truthy (backendUrl cfg) with
          | None => "Backend URL not configured. Please set it in Options."
          | Some _ => "API Key not configured. Please set it in Options."
          end)).
Proof.
  intros Hcfg. unfold submitJob.
  destruct (truthy (backendUrl cfg)) as [u|]; [|done].
  destruct Hcfg as [Hu|Hk]; [done | by rewrite Hk].
Qed.

(** An empty URL counts as none, and so does an empty key. *)
Lemma submitJob_not_configured_witness :
  submitJob (mkSettings (Some "") (Some "secret")) [job_b] sample_payload
    false 1000 "abc" 1001 (ok_response (mkSubmitData None))
  = ([job_b], [],
     inl "Backend URL not configured. Please set it in Options.")
  ∧ submitJob (mkSettings (Some "https://backend.example") None) [job_b]
      sample_payload false 1000 "abc" 1001 (ok_response (mkSubmitData None))
    = ([job_b], [], inl "API Key not configured. Please set it in Options.").
Proof.
  split.
  - apply (submitJob_not_configured (mkSettings (Some "") (Some "secret"))).
    by left.
  - apply (submitJob_not_configured
             (mkSettings (Some "https://backend.example") None)).
    by right.
Defined.

(** X2.  A configured submission that the backend accepts sends one
    request, whose body is the payload with [job_id] set to the generated
    id and every other property as submitted; the record read back under
    that id is ['pending'], without error or result, with the backend's
    id, or the generated one when the backend names none; the new id is
    appended to the ids of the store; one poll loop is started at
    attempt 0. *)
Theorem submitJob_accepted (cfg : Settings) (jobs : Store) (payload : Obj)
    (now : Time) (rnd : string) (now' : Time) (u k : string) (st : N)
    (txt : string) (data : SubmitData) :
  truthy (backendUrl cfg) = Some u →
  truthy (apiKey cfg) = Some k →
  let jobId := generateJobId now rnd in
  let bid := or_else (sub_job_id data) jobId in
  let body := obj_set "job_id" (JStr jobId) payload in
  let job :=
    set_updatedAt now' (set_backendJobId (Some bid) (new_job jobId payload now)) in
  ∃ jobs',
    submitJob cfg jobs payload false now rnd now' (Responded true st txt (inr data))
    = (jobs',
       [DoFetch (PostSubmit u k body); StartPoll (mkPollCall jobId u k 0)],
       inr (Submitted jobId bid))
    ∧ getJobById jobs' jobId = Some job
    ∧ Job.id <$> jobs' = (Job.id <$> jobs) ++ [jobId]
    ∧ Job.status job = "pending" ∧ Job.error job = None ∧ Job.result job = None
    ∧ obj_get "job_id" body = Some (JStr jobId)
    ∧ (∀ key, key ≠ "job_id" → obj_get key body = obj_get key payload).
Proof.
  intros Hu Hk jobId bid body job. unfold submitJob. rewrite Hu, Hk.
  eexists. split; [reflexivity|].
  destruct (save_then_update jobs (new_job jobId payload now) job eq_refl)
    as [Hget Hids].
  split_and!; try done.
  - apply obj_get_set_eq.
  - intros key Hne. by apply obj_get_set_ne.
Qed.

Lemma submitJob_accepted_witness :
  ∃ jobs',
    submitJob sample_settings [job_b] sample_payload false 1000 "abc" 1000
      (ok_response (mkSubmitData (Some "job-123")))
    = (jobs',
       [DoFetch (PostSubmit "https://backend.example" "secret"
                   (sample_payload ++ [("job_id", JStr "job-1000-abc")]));
        StartPoll (poll_a 0)],
       inr (Submitted "job-1000-abc" "job-123"))
    ∧ getJobById jobs' "job-1000-abc" = Some job_a.
Proof.
  destruct (submitJob_accepted sample_settings [job_b] sample_payload 1000
              "abc" 1000 "https://backend.example" "secret" 200 "OK"
              (mkSubmitData (Some "job-123")) eq_refl eq_refl)
    as (jobs' & Hrun & Hget & _).
  exists jobs'. split; [exact Hrun | exact Hget].
Defined.

(** X3.  A configured submission whose request fails (rejected, answered
    with a non-2xx status, or with a body that does not parse) throws, and
    the message it throws is the one stored: the record read back under
    the generated id is ['error'] with that message.  One request was
    sent and no poll loop is started.  For a non-2xx answer the message is
    ['Backend returned <status>: <statusText>']. *)
Theorem submitJob_rejected (cfg : Settings) (jobs : Store) (payload : Obj)
    (now : Time) (rnd : string) (now' : Time) (u k : string)
    (resp : Fetch SubmitData) :
  truthy (backendUrl cfg) = Some u →
  truthy (apiKey cfg) = Some k →
  failed resp = true →
  let jobId := generateJobId now rnd in
  ∃ jobs' message job,
    submitJob cfg jobs payload false now rnd now' resp
    = (jobs',
       [DoFetch (PostSubmit u k (obj_set "job_id" (JStr jobId) payload))],
       inl message)
    ∧ getJobById jobs' jobId = Some job
    ∧ Job.status job = "error"
    ∧ Job.error job = Some message
    ∧ Job.id <$> jobs' = (Job.id <$> jobs) ++ [jobId]
    ∧ (∀ s txt body, resp = Responded false s txt body →
         message = "Backend returned " +:+ dec s +:+ ": " +:+ txt)
    ∧ (∀ m, resp = Rejected m → message = m).
Proof.
  intros Hu Hk Hf jobId. unfold submitJob, submit_failed. rewrite Hu, Hk.
  destruct resp as [m|[] s txt [m|data]]; try done;
    eexists _, _, _; (split; [reflexivity|]);
    match goal with
    | |- getJobById (updateJob (saveJob _ ?r) ?r') _ = _ ∧ _ =>
        destruct (save_then_update jobs r r' eq_refl) as [Hget Hids]
    end;
    split_and!; try done; congruence.
Qed.

Lemma submitJob_rejected_witness :
  ∃ jobs' job,
    submitJob sample_settings [job_b] sample_payload false 1000 "abc" 1001
      (Responded false 503 "Service Unavailable" (inl ""))
    = (jobs',
       [DoFetch (PostSubmit "https://backend.example" "secret"
                   (sample_payload ++ [("job_id", JStr "job-1000-abc")]))],
       inl "Backend returned 503: Service Unavailable")
    ∧ getJobById jobs' "job-1000-abc" = Some job
    ∧ Job.status job = "error"
    ∧ Job.error job = Some "Backend returned 503: Service Unavailable".
Proof.
  destruct (submitJob_rejected sample_settings [job_b] sample_payload 1000
              "abc" 1001 "https://backend.example" "secret"
              (Responded false 503 "Service Unavailable" (inl ""))
              eq_refl eq_refl eq_refl)
    as (jobs' & message & job & Hrun & Hget & Hst & Herr & _ & Hmsg & _).
  rewrite (Hmsg _ _ _ eq_refl) in Hrun, Herr.
  by exists jobs', job.
Defined.

(** X4.  Whatever its inputs, a submission leaves the records stored
    under other ids as they are, either leaves the store unchanged or
    appends the generated id to its ids, sends at most one request and
    starts at most one poll loop. *)
Theorem submitJob_only_appends (cfg : Settings) (jobs : Store) (payload : Obj)
    (mockMode : bool) (now : Time) (rnd : string) (now' : Time)
    (resp : Fetch SubmitData) :
  let jobs' := (submitJob cfg jobs payload mockMode now rnd now' resp).1.1 in
  let effs := (submitJob cfg jobs payload mockMode now rnd now' resp).1.2 in
  (∀ i, i ≠ generateJobId now rnd → getJobById jobs' i = getJobById jobs i)
  ∧ (jobs' = jobs
     ∨ Job.id <$> jobs' = (Job.id <$> jobs) ++ [generateJobId now rnd])
  ∧ (length (requests effs) ≤ 1)%nat
  ∧ (length (scheduled effs) ≤ 1)%nat.
Proof.
  intros jobs' effs. subst jobs' effs. split.
  { intros i Hne. by apply submitJob_other. }
  unfold submitJob, submit_failed.
  destruct mockMode; [cbn; auto with lia|].
  destruct (truthy (backendUrl cfg)); [|cbn; auto with lia].
  destruct (truthy (apiKey cfg)); [|cbn; auto with lia].
  destruct resp as [?|[] ? ? [?|?]]; cbn [fst snd];
    (split; [right; rewrite ids_updateJob; unfold saveJob; by rewrite fmap_app|]);
    cbn; lia.
Qed.

(** ** Outcomes of one poll *)

(** What a poll of a stored, non-terminal job below the attempt limit
    comes to. *)
Lemma pollJobStatus_inflight jobs c j now sr rr :
  pc_attempt c < CONFIG.POLL_MAX_ATTEMPTS →
  getJobById jobs (pc_jobId c) = Some j →
  terminal (Job.status j) = false →
  pollJobStatus jobs c now sr rr
  = poll_resume jobs c j (or_else (Job.backendJobId j) (Job.id j)) now sr rr.
Proof.
  intros Hlt Hj Ht. unfold pollJobStatus, poll_begin.
  rewrite bool_decide_eq_false_2 by lia. by rewrite Hj, Ht.
Qed.

(** X5.  When the backend reports ['error'], the poll stores status
    ['error'] with the backend's message, or with ['Unknown error'] when
    the message is missing or empty; it asks for no result and schedules
    nothing, and later polls of the job do nothing. *)
Theorem poll_backend_error (jobs : Store) (c : PollCall) (j : JobRecord)
    (now : Time) (st : N) (txt : string) (sd : StatusData) (rr : Fetch Obj) :
  pc_attempt c < CONFIG.POLL_MAX_ATTEMPTS →
  getJobById jobs (pc_jobId c) = Some j →
  terminal (Job.status j) = false →
  st_status sd = "error" →
  let message :=
    match st_error sd with
    | None | Some "" => "Unknown error"
    | Some m => m
    end in
  let j' := set_error (Some message) (polled now sd j) in
  let jobs' := updateJob jobs j' in
  pollJobStatus jobs c now (Responded true st txt (inr sd)) rr
  = (jobs',
     [DoFetch (GetStatus (pc_backendUrl c) (pc_apiKey c)
                 (or_else (Job.backendJobId j) (Job.id j)))])
  ∧ getJobById jobs' (pc_jobId c) = Some j'
  ∧ Job.status j' = "error"
  ∧ Job.result j' = Job.result j
  ∧ (∀ c' now' sr' rr',
       pc_jobId c' = pc_jobId c →
       pollJobStatus jobs' c' now' sr' rr' = (jobs', [])).
Proof.
  intros Hlt Hj Ht He message j' jobs'.
  assert (Hget : getJobById jobs' (pc_jobId c) = Some j').
  { by apply (getJobById_updateJob_same _ _ j). }
  split_and!; try done.
  - rewrite (pollJobStatus_inflight _ _ j) by done.
    unfold poll_resume, poll_commit.
    rewrite bool_decide_eq_false_2 by (by rewrite He).
    rewrite bool_decide_eq_true_2 by done.
    assert (Hm : or_else (st_error sd) "Unknown error" = message).
    { subst message. by destruct (st_error sd) as [[|??]|]. }
    rewrite Hm. fold j' jobs'.
    assert (Hna : active (Job.status j') = false).
    { cbn. by rewrite He. }
    by rewrite Hna.
  - intros c' now' sr' rr' Hc'. apply (pollJobStatus_terminal _ _ j').
    + by rewrite Hc'.
    + cbn. by rewrite He.
Qed.

Lemma poll_backend_error_witness :
  ∃ j',
    getJobById
      (fst (pollJobStatus [job_a] (poll_a 2) 4000
              (ok_response (mkStatusData "error" None (Some "bad material")))
              server_error)) "job-1000-abc" = Some j'
    ∧ Job.status j' = "error" ∧ Job.error j' = Some "bad material".
Proof.
  destruct (poll_backend_error [job_a] (poll_a 2) job_a 4000 200 "OK"
              (mkStatusData "error" None (Some "bad material")) server_error)
    as (Hrun & Hget & Hst & _).
  - unfold CONFIG.POLL_MAX_ATTEMPTS. simpl. lia.
  - reflexivity.
  - reflexivity.
  - reflexivity.
  - eexists. unfold ok_response. rewrite Hrun. cbn [fst].
    split_and!; [exact Hget | exact Hst | reflexivity].
Defined.

(** X6.  When the backend reports ['done'] and the result request yields
    a body, the poll stores status ['done'] with that body as result and
    the error as it was, after exactly the two requests, and schedules
    nothing. *)
Theorem poll_done_with_result (jobs : Store) (c : PollCall) (j : JobRecord)
    (now : Time) (st : N) (txt : string) (sd : StatusData) (st' : N)
    (txt' : string) (res : Obj) :
  pc_attempt c < CONFIG.POLL_MAX_ATTEMPTS →
  getJobById jobs (pc_jobId c) = Some j →
  terminal (Job.status j) = false →
  st_status sd = "done" →
  let j' := set_result (Some res) (polled now sd j) in
  let bid := or_else (Job.backendJobId j) (Job.id j) in
  pollJobStatus jobs c now (Responded true st txt (inr sd))
    (Responded true st' txt' (inr res))
  = (updateJob jobs j',
     [DoFetch (GetStatus (pc_backendUrl c) (pc_apiKey c) bid);
      DoFetch (GetResult (pc_backendUrl c) (pc_apiKey c) bid)])
  ∧ getJobById (updateJob jobs j') (pc_jobId c) = Some j'
  ∧ Job.status j' = "done"
  ∧ Job.result j' = Some res
  ∧ Job.error j' = Job.error j.
Proof.
  intros Hlt Hj Ht Hd j' bid. split_and!; try done.
  - rewrite (pollJobStatus_inflight _ _ j) by done.
    unfold poll_resume, poll_commit. rewrite bool_decide_eq_true_2 by done.
    cbn. by rewrite Hd.
  - by apply (getJobById_updateJob_same _ _ j).
Qed.

Lemma poll_done_with_result_witness :
  ∃ j',
    getJobById
      (fst (pollJobStatus [job_a] (poll_a 0) 3000 (reports "done")
              (ok_response (mock_result 0)))) "job-1000-abc" = Some j'
    ∧ Job.status j' = "done" ∧ Job.result j' = Some (mock_result 0)
    ∧ Job.backendJobId j' = Some "job-123".
Proof.
  destruct (poll_done_with_result [job_a] (poll_a 0) job_a 3000 200 "OK"
              (mkStatusData "done" None None) 200 "OK" (mock_result 0))
    as (Hrun & Hget & Hst & Hres & _).
  - unfold CONFIG.POLL_MAX_ATTEMPTS. simpl. lia.
  - reflexivity.
  - reflexivity.
  - reflexivity.
  - eexists. unfold reports, ok_response. rewrite Hrun. cbn [fst].
    split_and!; [exact Hget | exact Hst | exact Hres | reflexivity].
Defined.

(** X7.  A status the coordinator does not know (anything but ['pending'],
    ['running'], ['done'], ['error']) is stored as reported and ends the
    loop: nothing is scheduled, although the record is not terminal. *)
Theorem poll_unknown_status_stops (jobs : Store) (c : PollCall)
    (j : JobRecord) (now : Time) (st : N) (txt : string) (sd : StatusData)
    (rr : Fetch Obj) :
  pc_attempt c < CONFIG.POLL_MAX_ATTEMPTS →
  getJobById jobs (pc_jobId c) = Some j →
  terminal (Job.status j) = false →
  active (st_status sd) = false →
  terminal (st_status sd) = false →
  pollJobStatus jobs c now (Responded true st txt (inr sd)) rr
  = (updateJob jobs (polled now sd j),
     [DoFetch (GetStatus (pc_backendUrl c) (pc_apiKey c)
                 (or_else (Job.backendJobId j) (Job.id j)))])
  ∧ getJobById (updateJob jobs (polled now sd j)) (pc_jobId c)
    = Some (polled now sd j)
  ∧ Job.status (polled now sd j) = st_status sd.
Proof.
  intros Hlt Hj Ht Ha Hnt. split_and!; try done.
  - rewrite (pollJobStatus_inflight _ _ j) by done.
    unfold poll_resume, poll_commit. unfold terminal in Hnt.
    apply orb_false_iff in Hnt as [-> ->]. cbn. by rewrite Ha.
  - by apply (getJobById_updateJob_same _ _ j).
Qed.

Lemma poll_unknown_status_stops_witness :
  pollJobStatus [job_a] (poll_a 0) 3000 (reports "queued") server_error
  = ([polled 3000 (mkStatusData "queued" None None) job_a],
     [DoFetch (GetStatus "https://backend.example" "secret" "job-123")]).
Proof.
  apply (poll_unknown_status_stops [job_a] (poll_a 0) job_a 3000 200 "OK"
           (mkStatusData "queued" None None) server_error); try reflexivity.
  unfold CONFIG.POLL_MAX_ATTEMPTS. simpl. lia.
Defined.

(** X8.  A poll in which something throws (the status request fails, or
    the backend says ['done'] and the result request is rejected or its
    body does not parse) writes nothing and schedules exactly one further
    attempt, with the next attempt number. *)
Theorem poll_failure_is_transient (jobs : Store) (c : PollCall)
    (j : JobRecord) (now : Time) (sr : Fetch StatusData) (rr : Fetch Obj) :
  pc_attempt c < CONFIG.POLL_MAX_ATTEMPTS →
  getJobById jobs (pc_jobId c) = Some j →
  terminal (Job.status j) = false →
  failed sr = true
  ∨ (∃ st txt sd, sr = Responded true st txt (inr sd) ∧ st_status sd = "done"
       ∧ ((∃ m, rr = Rejected m)
          ∨ ∃ st' txt' m, rr = Responded true st' txt' (inl m))) →
  fst (pollJobStatus jobs c now sr rr) = jobs
  ∧ scheduled (snd (pollJobStatus jobs c now sr rr)) = [next_call c]
  ∧ pc_attempt (next_call c) = S (pc_attempt c)
  ∧ pc_jobId (next_call c) = pc_jobId c.
Proof.
  intros Hlt Hj Ht Hcase.
  rewrite (pollJobStatus_inflight _ _ j) by done.
  split_and!; [| |cbn; lia|done];
    destruct Hcase as [Hf|(st & txt & sd & -> & Hd & Hrr)].
  - unfold poll_resume. by destruct sr as [?|[] ? ? [?|?]].
  - unfold poll_resume. rewrite bool_decide_eq_true_2 by done.
    by destruct Hrr as [[m ->]|(st' & txt' & m & ->)].
  - unfold poll_resume. by destruct sr as [?|[] ? ? [?|?]].
  - unfold poll_resume. rewrite bool_decide_eq_true_2 by done.
    by destruct Hrr as [[m ->]|(st' & txt' & m & ->)].
Qed.

Lemma poll_failure_is_transient_witness :
  fst (pollJobStatus [job_a] (poll_a 7) 9000 (Rejected "Failed to fetch")
         server_error) = [job_a]
  ∧ scheduled (snd (pollJobStatus [job_a] (poll_a 7) 9000
                      (Rejected "Failed to fetch") server_error))
    = [poll_a 8].
Proof.
  destruct (poll_failure_is_transient [job_a] (poll_a 7) job_a 9000
              (Rejected "Failed to fetch") server_error) as (H1 & H2 & _).
  - unfold CONFIG.POLL_MAX_ATTEMPTS. simpl. lia.
  - reflexivity.
  - reflexivity.
  - by left.
  - split; [exact H1 | exact H2].
Defined.

(** ** The poll loop, whatever the backend answers *)

Lemma active_error_false : active "error" = false.
Proof. reflexivity. Qed.

(** One invocation either ends the loop, and then the job is not left
    ['pending'] or ['running'], or schedules the next attempt; it makes at
    most one status request, and none once the limit is reached. *)
Lemma poll_step_cases jobs c now sr rr :
  let jobs' := fst (pollJobStatus jobs c now sr rr) in
  let effs := snd (pollJobStatus jobs c now sr rr) in
  ((scheduled effs = []
    ∧ ∀ j, getJobById jobs' (pc_jobId c) = Some j → active (Job.status j) = false)
   ∨ (pc_attempt c < CONFIG.POLL_MAX_ATTEMPTS ∧ scheduled effs = [next_call c]))
  ∧ (status_requests effs
     ≤ if decide (pc_attempt c < CONFIG.POLL_MAX_ATTEMPTS) then 1 else 0)%nat.
Proof.
  intros jobs' effs. subst jobs' effs. unfold pollJobStatus, poll_begin.
  case_bool_decide as Hlim.
  - rewrite decide_False by lia.
    cbn [fst snd]. split; [left; split; [done|] | cbn; lia].
    unfold poll_timeout.
    destruct (getJobById jobs (pc_jobId c)) as [j0|] eqn:Hj0.
    + destruct (active (Job.status j0)) eqn:Ha.
      * intros j. rewrite (getJobById_updateJob_same _ _ j0 (timed_out now j0))
          by done. by intros [= <-].
      * intros j. rewrite Hj0. by intros [= <-].
    + intros j. by rewrite Hj0.
  - rewrite decide_True by lia.
    destruct (getJobById jobs (pc_jobId c)) as [j0|] eqn:Hj0.
    2:{ cbn [fst snd]. split; [left; split; [done|] | cbn; lia].
        intros j. by rewrite Hj0. }
    destruct (terminal (Job.status j0)) eqn:Ht.
    { cbn [fst snd]. split; [left; split; [done|] | cbn; lia].
      intros j. rewrite Hj0. intros [= <-]. by apply terminal_not_active. }
    assert (Hcommit : ∀ job effs0,
      Job.id job = Job.id j0 → scheduled effs0 = [] →
      (scheduled (snd (poll_commit jobs c job effs0)) = []
       ∧ ∀ j, getJobById (fst (poll_commit jobs c job effs0)) (pc_jobId c)
              = Some j → active (Job.status j) = false)
      ∨ (pc_attempt c < CONFIG.POLL_MAX_ATTEMPTS
         ∧ scheduled (snd (poll_commit jobs c job effs0)) = [next_call c])).
    { intros job effs0 Hid Hs. unfold poll_commit. cbn [fst snd].
      destruct (active (Job.status job)) eqn:Ha.
      - right. split; [lia|].
        clear -Hs. induction effs0 as [|[]]; cbn in *; try done; auto.
      - left. split; [done|]. intros j.
        rewrite (getJobById_updateJob_same _ _ j0 job) by done.
        by intros [= <-]. }
    unfold poll_resume.
    destruct sr as [?|[] ? ? [?|sd]];
      try (split; [right; split; [lia | done] | cbn; lia]).
    case_bool_decide; [|case_bool_decide].
    + destruct rr as [?|[] ? ? [?|?]];
        try (split; [right; split; [lia | done] | cbn; lia]);
        (split; [by apply Hcommit|]);
        unfold poll_commit; cbn [snd]; destruct (active _); cbn; lia.
    + split; [by apply Hcommit|].
      unfold poll_commit; cbn [snd]; destruct (active _); cbn; lia.
    + split; [by apply Hcommit|].
      unfold poll_commit; cbn [snd]; destruct (active _); cbn; lia.
Qed.

Lemma status_requests_app effs1 effs2 :
  status_requests (effs1 ++ effs2)
  = status_requests effs1 + status_requests effs2.
Proof.
  unfold status_requests.
  induction effs1 as [|[r| |] effs1 IH]; cbn; try done.
  destruct (is_status_request r); cbn; by rewrite ?IH.
Qed.

(** X9.  Left alone, a poll loop ends whatever the backend answers: from
    attempt [a] it ends within [POLL_MAX_ATTEMPTS - a + 1] invocations,
    after at most [POLL_MAX_ATTEMPTS - a] status requests, and when it has
    ended the job is not stored as ['pending'] or ['running']. *)
Theorem poll_loop_terminates (n : nat) (jobs : Store) (c : PollCall)
    (clock : nat → Time) (backend : nat → Fetch StatusData * Fetch Obj) :
  CONFIG.POLL_MAX_ATTEMPTS - pc_attempt c < n →
  ∃ jobs' effs,
    poll_loop n jobs (Some c) clock backend = (jobs', None, effs)
    ∧ (status_requests effs ≤ CONFIG.POLL_MAX_ATTEMPTS - pc_attempt c)%nat
    ∧ ∀ j, getJobById jobs' (pc_jobId c) = Some j → active (Job.status j) = false.
Proof.
  revert jobs c. induction n as [|n IH]; intros jobs c Hn; [lia|].
  cbn [poll_loop].
  pose proof (poll_step_cases jobs c (clock (pc_attempt c))
                (fst (backend (pc_attempt c))) (snd (backend (pc_attempt c))))
    as [Hcases Hreq].
  destruct (pollJobStatus _ _ _ _ _) as [jobs1 effs1]. cbn [fst snd] in *.
  destruct Hcases as [[Hs Hna]|[Hlt Hs]]; rewrite Hs; cbn [head].
  - rewrite poll_loop_None. exists jobs1, (effs1 ++ []).
    split_and!; [done | | done].
    rewrite app_nil_r.
    destruct (decide (pc_attempt c < CONFIG.POLL_MAX_ATTEMPTS)); lia.
  - destruct (IH jobs1 (next_call c)) as (jobs' & effs & Hloop & Hreq' & Hna).
    { cbn [next_call pc_attempt]. lia. }
    rewrite Hloop. exists jobs', (effs1 ++ effs).
    split_and!; [done | | done].
    rewrite status_requests_app. cbn [next_call pc_attempt] in Hreq'.
    rewrite decide_True in Hreq by done. lia.
Qed.

Lemma poll_loop_terminates_witness :
  ∃ jobs' effs,
    poll_loop 61 [job_a] (Some (poll_a 0)) sample_clock flaky_backend
    = (jobs', None, effs)
    ∧ (status_requests effs ≤ 60)%nat
    ∧ ∀ j, getJobById jobs' "job-1000-abc" = Some j
           → active (Job.status j) = false.
Proof.
  apply (poll_loop_terminates 61 [job_a] (poll_a 0) sample_clock flaky_backend).
  unfold CONFIG.POLL_MAX_ATTEMPTS. simpl. lia.
Defined.

Lemma delays_app effs1 effs2 : delays (effs1 ++ effs2) = delays effs1 ++ delays effs2.
Proof.
  induction effs1 as [|[] effs1 IH]; cbn; by rewrite ?IH.
Qed.

(** While the backend reports ['running'], the delays set by [n]
    invocations from attempt [a] are those of attempts [a], ..., [a+n-1]. *)
Lemma poll_loop_running_delays n : ∀ jobs c j clock backend,
  (pc_attempt c + n ≤ CONFIG.POLL_MAX_ATTEMPTS)%nat →
  getJobById jobs (pc_jobId c) = Some j →
  active (Job.status j) = true →
  always_running backend →
  delays (poll_loop n jobs (Some c) clock backend).2
  = next_delay <$> seq (pc_attempt c) n.
Proof.
  induction n as [|n IH]; intros jobs c j clock backend Hle Hj Ha Hb; [done|].
  destruct (Hb (pc_attempt c)) as (st & txt & sd & Hs & Hr).
  destruct (poll_running jobs c j (clock (pc_attempt c)) st txt sd
              (snd (backend (pc_attempt c)))) as [Hrun Hget]; try done; [lia|].
  pose proof (IH _ (next_call c) _ clock backend ltac:(cbn; lia) Hget
                ltac:(cbn; by rewrite Hr) Hb) as Hd.
  cbn [poll_loop]. rewrite Hs, Hrun. cbn [scheduled head].
  destruct (poll_loop n _ _ _ _) as [[jobs' call'] effs'].
  cbn [snd] in *. cbn [delays app]. rewrite Hd.
  cbn [next_call pc_attempt].
  by replace (pc_attempt c + 1) with (S (pc_attempt c)) by lia.
Qed.

(** X10.  For a job whose every status response reports ['running'], the
    timers set before the timeout are those of attempts 0 to 59, each with
    the capped delay, and they add up to 861687.5 ms: the job is declared
    timed out some 14 minutes and 22 seconds of waiting after its
    submission (plus the time the requests take). *)
Theorem poll_loop_total_delay (jobs : Store) (c : PollCall) (j : JobRecord)
    (clock : nat → Time) (backend : nat → Fetch StatusData * Fetch Obj)
    (n : nat) :
  pc_attempt c = 0 →
  getJobById jobs (pc_jobId c) = Some j →
  active (Job.status j) = true →
  always_running backend →
  CONFIG.POLL_MAX_ATTEMPTS < n →
  delays (poll_loop n jobs (Some c) clock backend).2
  = next_delay <$> seq 0 CONFIG.POLL_MAX_ATTEMPTS
  ∧ (total (delays (poll_loop n jobs (Some c) clock backend).2)
     == 861687.5)%Q.
Proof.
  intros H0 Hj Ha Hb Hn.
  assert (Hd : delays (poll_loop n jobs (Some c) clock backend).2
               = next_delay <$> seq 0 CONFIG.POLL_MAX_ATTEMPTS).
  { replace n with (CONFIG.POLL_MAX_ATTEMPTS + S (n - S CONFIG.POLL_MAX_ATTEMPTS))
      by lia.
    rewrite poll_loop_app.
    pose proof (poll_loop_running_delays CONFIG.POLL_MAX_ATTEMPTS jobs c j
                  clock backend ltac:(lia) Hj Ha Hb) as Hd.
    destruct (poll_loop_running CONFIG.POLL_MAX_ATTEMPTS jobs c j clock backend)
      as (jobs' & j' & effs & Hloop & Hj' & Ha' & Hlen); try done; [lia|].
    rewrite Hloop in Hd |- *. cbn [snd] in Hd. cbn [poll_loop].
    set (c' := at_attempt c (pc_attempt c + CONFIG.POLL_MAX_ATTEMPTS)).
    destruct (poll_at_limit jobs' c' j' (clock (pc_attempt c'))
                (fst (backend (pc_attempt c'))) (snd (backend (pc_attempt c'))))
      as [Hrun Hget]; [cbn; lia|done|done|].
    rewrite Hrun. cbn [scheduled head]. rewrite poll_loop_None.
    cbn [snd]. rewrite !app_nil_r, Hd. by rewrite H0. }
  split; [exact Hd|]. rewrite Hd. vm_compute. reflexivity.
Qed.

Lemma poll_loop_total_delay_witness :
  (total (delays (poll_loop 61 [job_a] (Some (poll_a 0)) sample_clock
                    running_backend).2) == 861687.5)%Q.
Proof.
  apply (poll_loop_total_delay [job_a] (poll_a 0) job_a sample_clock
           running_backend 61); try reflexivity.
  - intros k. by eexists _, _, _.
  - unfold CONFIG.POLL_MAX_ATTEMPTS. lia.
Defined.

(** ** The shape of stored records *)

Lemma well_formed_new_job jobId payload now :
  well_formed (new_job jobId payload now).
Proof.
  split_and!; [done | apply obj_get_set_eq | by intros [??]].
Qed.

(** The first two parts of [well_formed] only look at properties no
    assignment of the coordinator touches. *)
Lemma well_formed_frame j j' :
  well_formed j →
  Job.retries j' = Job.retries j →
  Job.payload j' = Job.payload j →
  Job.id j' = Job.id j →
  (is_Some (Job.result j') → terminal (Job.status j') = true) →
  well_formed j'.
Proof.
  intros (Hr & Hp & _) Hr' Hp' Hid Hres.
  split_and!; [congruence | by rewrite Hp', Hid | done].
Qed.

Lemma no_result_while_active j :
  well_formed j → terminal (Job.status j) = false → Job.result j = None.
Proof.
  intros (_ & _ & Hres) Ht. destruct (Job.result j) eqn:E; [|done].
  rewrite Hres in Ht; [done | by eexists].
Qed.

Lemma poll_resume_well_formed jobs c job bid now sr rr :
  Forall well_formed jobs →
  well_formed job →
  terminal (Job.status job) = false →
  Forall well_formed (fst (poll_resume jobs c job bid now sr rr)).
Proof.
  intros Hall Hwf Ht.
  pose proof (no_result_while_active _ Hwf Ht) as Hnone.
  unfold poll_resume, poll_commit, poll_caught.
  destruct sr as [?|[] ? ? [?|sd]]; cbn [fst]; try done.
  case_bool_decide as Hd; [destruct rr as [?|[] ? ? [?|?]]|case_bool_decide];
    cbn [fst]; try done; apply Forall_updateJob; try done;
    apply (well_formed_frame job); try done; cbn; rewrite ?Hnone;
    try (by intros [??]).
  intros _. by rewrite Hd.
Qed.

Lemma reachable_shape w :
  reachable w →
  Forall well_formed (w_jobs w)
  ∧ Forall (λ p, well_formed (pd_job p)
                 ∧ terminal (Job.status (pd_job p)) = false)
      (w_inflight w).
Proof.
  intros [ops ->].
  { unfold run.
    induction ops as [|op ops IH] using rev_ind; [by split; constructor|].
    rewrite foldl_app. cbn [foldl].
    destruct IH as [Hjobs Hfly]. set (w := foldl exec initial ops) in *.
    destruct op as [cfg payload mockMode now rnd now' resp|i|i now|k now
                   |k now sr rr|i|]; cbn [exec].
    - split; [|by destruct (submitJob _ _ _ _ _ _ _ _) as [[??]?]].
      unfold submitJob, submit_failed.
      destruct mockMode; [done|].
      destruct (truthy (backendUrl cfg)); [|done].
      destruct (truthy (apiKey cfg)); [|done].
      pose proof (well_formed_new_job (generateJobId now rnd) payload now)
        as Hnew.
      assert (Hsaved : ∀ j, well_formed j →
                Forall well_formed
                  (updateJob (saveJob (w_jobs w)
                     (new_job (generateJobId now rnd) payload now)) j)).
      { intros j Hj. apply Forall_updateJob; [|done].
        apply Forall_app. split; [done|]. by apply Forall_singleton. }
      destruct resp as [?|[] ? ? [?|?]]; cbn [w_jobs];
        apply Hsaved; apply (well_formed_frame _ _ Hnew); try done;
        by intros [??].
    - done.
    - split; [|done]. cbn [w_jobs]. unfold cancelJob.
      destruct (getJobById (w_jobs w) i) as [j|] eqn:Hj; [|done].
      cbn [fst]. apply Forall_updateJob; [done|].
      by apply (well_formed_frame j _ (Forall_getJobById _ _ _ _ Hjobs Hj)).
    - destruct (w_timers w !! k) as [c|]; [|done].
      unfold poll_begin, poll_timeout. case_bool_decide.
      + split; [|done]. cbn [w_jobs].
        destruct (getJobById (w_jobs w) (pc_jobId c)) as [j|] eqn:Hj; [|done].
        destruct (active _); [|done].
        apply Forall_updateJob; [done|].
        by apply (well_formed_frame j _ (Forall_getJobById _ _ _ _ Hjobs Hj)).
      + destruct (getJobById (w_jobs w) (pc_jobId c)) as [j|] eqn:Hj; [|done].
        destruct (terminal (Job.status j)) eqn:Ht; [done|].
        split; [done|]. cbn [w_inflight]. apply Forall_app. split; [done|].
        apply Forall_singleton. split; [|done].
        by apply (Forall_getJobById _ _ _ _ Hjobs Hj).
    - destruct (w_inflight w !! k) as [p|] eqn:Hp; [|done].
      apply (Forall_lookup_1 _ _ _ _ Hfly) in Hp as [Hok Ht].
      pose proof (poll_resume_well_formed (w_jobs w) (pd_call p) (pd_job p)
                    (pd_backendJobId p) now sr rr Hjobs Hok Ht) as Hres.
      destruct (poll_resume _ _ _ _ _ _ _) as [jobs effs].
      split; [done|]. cbn [w_inflight]. by apply Forall_delete.
    - split; [|done]. cbn [w_jobs]. unfold deleteJob.
      rewrite Forall_forall in Hjobs. apply Forall_forall.
      intros x [_ Hx]%list_elem_of_filter. by apply Hjobs.
    - by split. }
Qed.

(** X11.  In every world the extension can reach, with polls in flight,
    cancellations and deletions interleaved, every stored record has
    [retries] 0 (the counter is never incremented), carries its own id as
    [job_id] of its payload, and has a result only if its status is
    ['done'] or ['error']. *)
Theorem reachable_well_formed (w : World) (j : JobRecord) :
  reachable w → j ∈ w_jobs w → well_formed j.
Proof.
  intros [Hall _]%reachable_shape Hin.
  rewrite Forall_forall in Hall. by apply Hall.
Qed.

Lemma reachable_well_formed_witness :
  well_formed job_a_stuck.
Proof.
  apply (reachable_well_formed (mkWorld [job_a_stuck] [] [])).
  - by exists lost_result_run.
  - cbn. left.
Defined.

(** X12.  In every reachable world, [viewJob] opens the result window only
    for a job whose status is ['done'] or ['error'], and for the record
    stored first under the requested id; for a job that is ['pending'] or
    ['running'], or not stored, it shows the alert. *)
Theorem viewJob_only_terminal (w : World) (i : string) :
  reachable w →
  (∀ j, viewJob (w_jobs w) i = ResultWindow j →
        getJobById (w_jobs w) i = Some j
        ∧ is_Some (Job.result j)
        ∧ terminal (Job.status j) = true)
  ∧ ((getJobById (w_jobs w) i = None
      ∨ ∃ j, getJobById (w_jobs w) i = Some j ∧ terminal (Job.status j) = false) →
     viewJob (w_jobs w) i = Alert "No result available for this job").
Proof.
  intros [Hall _]%reachable_shape. unfold viewJob. split.
  - intros j. destruct (getJobById (w_jobs w) i) as [j0|] eqn:Hj0; [|done].
    destruct (Job.result j0) as [res|] eqn:Hres; [|done].
    intros [= <-]. split_and!; [done | by rewrite Hres |].
    destruct (Forall_getJobById _ _ _ _ Hall Hj0) as (_ & _ & Hterm).
    apply Hterm. by rewrite Hres.
  - intros [->|(j & Hj & Ht)]; [done|]. rewrite Hj.
    by rewrite (no_result_while_active j (Forall_getJobById _ _ _ _ Hall Hj) Ht).
Qed.

Lemma viewJob_only_terminal_witness :
  viewJob (w_jobs (run [submit_a] initial)) "job-1000-abc"
  = Alert "No result available for this job"
  ∧ viewJob [job_a_done] "job-1000-abc" = ResultWindow job_a_done.
Proof.
  split; [|reflexivity].
  apply (viewJob_only_terminal (run [submit_a] initial) "job-1000-abc").
  - by exists [submit_a].
  - right. eexists. split; reflexivity.
Defined.

(** ** Job ids *)

Lemma no_dash_string_of_uint d : no_dash (NilEmpty.string_of_uint d) = true.
Proof. induction d; cbn; done. Qed.

Lemma dec_inj n n' : dec n = dec n' → n = n'.
Proof.
  unfold dec. intros E. apply DecimalN.Unsigned.to_uint_inj.
  apply (f_equal NilEmpty.uint_of_string) in E.
  rewrite !NilEmpty.usu in E. congruence.
Qed.

(** A string is cut at its first dash in one way only. *)
Lemma split_at_dash s1 : ∀ s2 r1 r2,
  no_dash s1 = true → no_dash s2 = true →
  s1 +:+ "-" +:+ r1 = s2 +:+ "-" +:+ r2 → s1 = s2 ∧ r1 = r2.
Proof.
  induction s1 as [|a s1 IH]; intros [|b s2] r1 r2 H1 H2 E;
    cbn [no_dash] in *.
  - change (String "-" r1 = String "-" r2) in E. by injection E as ->.
  - change (String "-" r1 = String b (s2 +:+ "-" +:+ r2)) in E.
    injection E as <- _. by rewrite Ascii.eqb_refl in H2.
  - change (String a (s1 +:+ "-" +:+ r1) = String "-" r2) in E.
    injection E as -> _. by rewrite Ascii.eqb_refl in H1.
  - change (String a (s1 +:+ "-" +:+ r1) = String b (s2 +:+ "-" +:+ r2)) in E.
    injection E as -> E. apply andb_true_iff in H1 as [_ H1].
    apply andb_true_iff in H2 as [_ H2].
    by destruct (IH _ _ _ H1 H2 E) as [-> ->].
Qed.

(** X13.  [generateJobId] yields the same id only for the same clock value
    and the same random suffix, so two submissions that differ in either
    get different ids; and no job id is the [job_id] of a mock result. *)
Theorem generateJobId_inj (now now' : Time) (rnd rnd' : string) :
  (generateJobId now rnd = generateJobId now' rnd' ↔ now = now' ∧ rnd = rnd')
  ∧ ∀ t, obj_get "job_id" (mock_result t) ≠ Some (JStr (generateJobId now rnd)).
Proof.
  split; [split|].
  - unfold generateJobId. intros E.
    change (String "j" (String "o" (String "b" (String "-"
              (dec now +:+ "-" +:+ rnd))))
            = String "j" (String "o" (String "b" (String "-"
                (dec now' +:+ "-" +:+ rnd'))))) in E.
    injection E as E.
    apply split_at_dash in E as [E ->];
      [|apply no_dash_string_of_uint|apply no_dash_string_of_uint].
    by apply dec_inj in E as ->.
  - by intros [-> ->].
  - intros t. cbn. discriminate.
Qed.

(** ** Poll loops do not multiply *)

Lemma length_filter_delete {A} (P : A → Prop) `{∀ x, Decision (P x)}
    (l : list A) k x :
  l !! k = Some x →
  length (filter P l)
  = length (filter P (delete k l)) + (if decide (P x) then 1 else 0).
Proof.
  revert k. induction l as [|y l IH]; intros [|k] Hk; try done; cbn in Hk.
  - injection Hk as ->. change (delete 0 (x :: l)) with l.
    rewrite filter_cons. destruct (decide (P x)); cbn [length]; lia.
  - change (delete (S k) (y :: l)) with (y :: delete k l).
    rewrite !filter_cons.
    destruct (decide (P y)); cbn [length]; rewrite (IH k Hk);
      destruct (decide (P x)); lia.
Qed.

Lemma length_filter_jobId i (l : list PollCall) :
  length (filter (λ c, pc_jobId c = i) l)
  = length (filter (λ x, x = i) (pc_jobId <$> l)).
Proof.
  induction l as [|c l IH]; [done|]. csimpl. rewrite !filter_cons.
  destruct (decide (pc_jobId c = i)); cbn; by rewrite IH.
Qed.

(** The effects of a submission do not depend on the store, and the ids
    of the store it leaves are the old ones followed by the ids it
    stores. *)
Lemma submitJob_store_independent cfg jobs payload mockMode now rnd now' resp :
  (submitJob cfg jobs payload mockMode now rnd now' resp).1.2
  = (submitJob cfg [] payload mockMode now rnd now' resp).1.2
  ∧ Job.id <$> (submitJob cfg jobs payload mockMode now rnd now' resp).1.1
    = (Job.id <$> jobs)
      ++ stored_by (Submit cfg payload mockMode now rnd now' resp).
Proof.
  unfold stored_by, submitJob, submit_failed.
  destruct mockMode; [by rewrite app_nil_r|].
  destruct (truthy (backendUrl cfg)); [|by rewrite app_nil_r].
  destruct (truthy (apiKey cfg)); [|by rewrite app_nil_r].
  destruct resp as [?|[] ? ? [?|?]]; cbn [fst snd]; (split; [done|]);
    rewrite !ids_updateJob; unfold saveJob; by rewrite fmap_app.
Qed.

(** The rest of a poll schedules nothing or the next attempt. *)
Lemma poll_resume_scheduled jobs c job bid now sr rr :
  scheduled (snd (poll_resume jobs c job bid now sr rr)) = []
  ∨ scheduled (snd (poll_resume jobs c job bid now sr rr)) = [next_call c].
Proof.
  unfold poll_resume, poll_commit, poll_caught.
  destruct sr as [?|[] ? ? [?|sd]]; cbn [snd]; auto.
  case_bool_decide; [destruct rr as [?|[] ? ? [?|?]]|case_bool_decide];
    cbn [snd]; auto; destruct (active _); auto.
Qed.

(** One step adds polls of a job only by starting the loop of a
    submission. *)
Lemma outstanding_exec i w op :
  (outstanding i (exec w op)
   ≤ outstanding i w + length (filter (λ x, x = i) (started_by op)))%nat.
Proof.
  unfold outstanding.
  destruct op as [cfg payload mockMode now rnd now' resp|?|? ?|k now
                 |k now sr rr|?|]; cbn [exec started_by];
    try (cbn; lia).
  - destruct (submitJob_store_independent cfg (w_jobs w) payload mockMode now
                rnd now' resp) as [Heffs _].
    destruct (submitJob cfg (w_jobs w) _ _ _ _ _ _) as [[jobs' effs] out].
    cbn [fst snd] in Heffs. subst effs. cbn [w_timers w_inflight].
    rewrite filter_app, length_app, (length_filter_jobId i (scheduled _)).
    lia.
  - destruct (w_timers w !! k) as [c|] eqn:Hk; [|cbn; lia].
    rewrite (length_filter_delete (λ c, pc_jobId c = i) _ _ _ Hk).
    destruct (poll_begin (w_jobs w) c now) as [jobs'|job bid];
      cbn [w_timers w_inflight]; [destruct (decide _); lia|].
    rewrite filter_app, length_app, filter_cons. cbn [pd_call].
    destruct (decide (pc_jobId c = i)); cbn; lia.
  - destruct (w_inflight w !! k) as [p|] eqn:Hk; [|cbn; lia].
    rewrite (length_filter_delete (λ p, pc_jobId (pd_call p) = i) _ _ _ Hk).
    pose proof (poll_resume_scheduled (w_jobs w) (pd_call p) (pd_job p)
                  (pd_backendJobId p) now sr rr) as Hs.
    destruct (poll_resume _ _ _ _ _ _ _) as [jobs' effs].
    cbn [snd] in Hs. cbn [w_timers w_inflight].
    rewrite filter_app, length_app.
    destruct Hs as [->| ->]; [cbn; destruct (decide _); lia|].
    rewrite filter_cons. cbn [next_call pc_jobId].
    destruct (decide (pc_jobId (pd_call p) = i)); cbn; lia.
Qed.

Lemma outstanding_run i ops : ∀ w,
  (outstanding i (run ops w)
   ≤ outstanding i w
     + length (filter (λ x, x = i) (flat_map started_by ops)))%nat.
Proof.
  unfold run. induction ops as [|op ops IH]; intros w; [cbn; lia|].
  cbn [foldl flat_map]. rewrite filter_app, length_app.
  pose proof (IH (exec w op)). pose proof (outstanding_exec i w op). lia.
Qed.

Lemma filter_eq_absent (i : string) (l : list string) :
  i ∉ l → filter (λ x, x = i) l = [].
Proof.
  induction l as [|x l IH]; [done|]. intros [Hne Hl]%not_elem_of_cons.
  rewrite filter_cons. rewrite decide_False by done. by apply IH.
Qed.

Lemma NoDup_count (i : string) (l : list string) :
  NoDup l → (length (filter (λ x, x = i) l) ≤ 1)%nat.
Proof.
  induction 1 as [|x l Hx Hl IH]; [cbn; lia|]. rewrite filter_cons.
  destruct (decide (x = i)) as [->|]; [|done].
  rewrite filter_eq_absent by done. cbn. lia.
Qed.

(** X14.  Polls of a job are scheduled or in flight only as far as
    submissions started them: a step that is not a submission never adds
    one, so a loop never forks.  When the submissions that started a loop
    did so under different ids, every job has at most one poll scheduled
    or in flight, in every reachable world. *)
Theorem one_poll_per_job (ops : list Op) (i : string) :
  NoDup (flat_map started_by ops) →
  (outstanding i (run ops initial) ≤ 1)%nat
  ∧ ∀ w op, started_by op = [] →
            (outstanding i (exec w op) ≤ outstanding i w)%nat.
Proof.
  intros Hnd. split.
  - pose proof (outstanding_run i ops initial) as Hrun.
    pose proof (NoDup_count i _ Hnd) as Hc.
    unfold outstanding in Hrun at 2. cbn in Hrun. lia.
  - intros w op Hop. pose proof (outstanding_exec i w op) as Hstep.
    rewrite Hop in Hstep. cbn in Hstep. lia.
Qed.

Lemma one_poll_per_job_witness :
  (outstanding "job-1000-abc"
     (run (cancel_race_run
           ++ [Respond 0 3000 (reports "running") server_error; Wake 0 4000])
        initial) ≤ 1)%nat.
Proof.
  refine (proj1 (one_poll_per_job
                   (cancel_race_run
                    ++ [Respond 0 3000 (reports "running") server_error;
                        Wake 0 4000])
                   "job-1000-abc" _)).
  compute_done.
Defined.

(** ** One record per id *)

Lemma ids_poll_resume jobs c job bid now sr rr :
  Job.id <$> fst (poll_resume jobs c job bid now sr rr) = Job.id <$> jobs.
Proof.
  unfold poll_resume, poll_commit, poll_caught.
  destruct sr as [?|[] ? ? [?|sd]]; cbn [fst]; try done.
  case_bool_decide; [destruct rr as [?|[] ? ? [?|?]]|case_bool_decide];
    cbn [fst]; try done; apply ids_updateJob.
Qed.

(** The ids of the store after a step are among the old ones, in their
    order, followed by the ids the step stores. *)
Lemma ids_exec w op :
  (Job.id <$> w_jobs (exec w op))
    `sublist_of` (Job.id <$> w_jobs w) ++ stored_by op.
Proof.
  destruct op as [cfg payload mockMode now rnd now' resp|?|i now|k now
                 |k now sr rr|i|]; cbn [exec].
  - destruct (submitJob_store_independent cfg (w_jobs w) payload mockMode now
                rnd now' resp) as [_ Hids].
    destruct (submitJob cfg (w_jobs w) _ _ _ _ _ _) as [[jobs' effs] out].
    cbn [fst snd w_jobs] in *. by rewrite Hids.
  - cbn. by rewrite app_nil_r.
  - cbn [w_jobs stored_by]. rewrite app_nil_r. unfold cancelJob.
    destruct (getJobById (w_jobs w) i); cbn [fst]; by rewrite ?ids_updateJob.
  - cbn [stored_by]. rewrite app_nil_r.
    destruct (w_timers w !! k) as [c|]; [|done].
    unfold poll_begin, poll_timeout. case_bool_decide.
    + cbn [w_jobs]. destruct (getJobById _ _); [|done].
      destruct (active _); by rewrite ?ids_updateJob.
    + destruct (getJobById _ _) as [j|]; [|done]. by destruct (terminal _).
  - cbn [stored_by]. rewrite app_nil_r.
    destruct (w_inflight w !! k) as [p|]; [|done].
    pose proof (ids_poll_resume (w_jobs w) (pd_call p) (pd_job p)
                  (pd_backendJobId p) now sr rr) as Hids.
    destruct (poll_resume _ _ _ _ _ _ _) as [jobs' effs].
    cbn [fst w_jobs] in *. by rewrite Hids.
  - cbn [w_jobs stored_by]. rewrite app_nil_r. unfold deleteJob.
    apply fmap_sublist, sublist_filter.
  - cbn. apply sublist_nil_l.
Qed.

Lemma ids_run ops : ∀ w,
  (Job.id <$> w_jobs (run ops w))
    `sublist_of` (Job.id <$> w_jobs w) ++ flat_map stored_by ops.
Proof.
  unfold run. induction ops as [|op ops IH]; intros w.
  - cbn. by rewrite app_nil_r.
  - cbn [foldl flat_map]. etrans; [apply IH|].
    rewrite app_assoc. apply sublist_app; [apply ids_exec | done].
Qed.

(** X15.  The ids of the stored records are, in order, among the ids
    under which submissions stored a record; so when those ids are
    pairwise different, no two stored records share an id, in every
    reachable world, and a job's record is the only one [getJobById] and
    [updateJob] can find under its id. *)
Theorem one_record_per_id (ops : list Op) :
  NoDup (flat_map stored_by ops) →
  (Job.id <$> w_jobs (run ops initial)) `sublist_of` flat_map stored_by ops
  ∧ NoDup (Job.id <$> w_jobs (run ops initial))
  ∧ ∀ j, j ∈ w_jobs (run ops initial) →
         getJobById (w_jobs (run ops initial)) (Job.id j) = Some j.
Proof.
  intros Hnd. pose proof (ids_run ops initial) as Hsub. cbn in Hsub.
  assert (Hids : NoDup (Job.id <$> w_jobs (run ops initial))).
  { by apply (sublist_NoDup _ _ Hnd). }
  split_and!; try done.
  revert Hids. generalize (w_jobs (run ops initial)). clear.
  intros jobs. induction jobs as [|x jobs IH]; intros Hnd j Hin.
  - by apply elem_of_nil in Hin.
  - csimpl in Hnd. apply NoDup_cons in Hnd as [Hx Hnd].
    rewrite getJobById_cons. apply elem_of_cons in Hin as [->|Hin].
    + by rewrite decide_True.
    + rewrite decide_False; [by apply IH|].
      intros Heq. apply Hx. rewrite Heq. by apply list_elem_of_fmap_2.
Qed.

Lemma one_record_per_id_witness :
  NoDup (Job.id
           <$> w_jobs (run (lost_result_run
                            ++ [Submit sample_settings sample_payload false
                                  5000 "xyz" 5001 server_error])
                         initial)).
Proof.
  refine (proj1 (proj2 (one_record_per_id
                          (lost_result_run
                           ++ [Submit sample_settings sample_payload false
                                 5000 "xyz" 5001 server_error]) _))).
  compute_done.
Defined.

(** ** The message router *)

(** X16.  The listener answers every message.  An action other than the
    four known ones is answered with ['Unknown action: <action>'], and
    like [getJobStatus] and [getMockResponse] it leaves the store as it is
    and has no effect.  When the answer is a failure, either nothing was
    written and no effect took place, or the message was a submission
    whose request failed, and then the error of the answer is the error
    stored in the record of the new job, for which no poll was started. *)
Theorem onMessage_answers (cfg : Settings) (jobs : Store) (request : Msg.t)
    (env : Env) :
  let jobs' := (onMessage cfg jobs request env).1.1 in
  let effs := (onMessage cfg jobs request env).1.2 in
  let response := (onMessage cfg jobs request env).2 in
  (Msg.action request ∉ ["submitJob"; "getJobStatus"; "cancelJob";
                         "getMockResponse"] →
     response = Failure ("Unknown action: " +:+ Msg.action request)
     ∧ jobs' = jobs ∧ effs = [])
  ∧ (Msg.action request = "getJobStatus"
     ∨ Msg.action request = "getMockResponse" →
     jobs' = jobs ∧ effs = [])
  ∧ (∀ message, response = Failure message →
       (jobs' = jobs ∧ effs = [])
       ∨ (Msg.action request = "submitJob"
          ∧ scheduled effs = []
          ∧ ∃ job,
              getJobById jobs' (generateJobId (env_now env) (env_rnd env))
              = Some job
              ∧ Job.status job = "error"
              ∧ Job.error job = Some message)).
Proof.
  intros jobs' effs response. subst jobs' effs response.
  unfold onMessage, handleMessage. split_and!.
  - intros Hno. repeat (rewrite decide_False; [|intros E; apply Hno; rewrite E;
      repeat ((by left) || right)]). done.
  - intros [E|E]; rewrite E; by repeat case_decide.
  - intros message.
    destruct (decide (Msg.action request = "submitJob")) as [Ea|_].
    + unfold submitJob, submit_failed.
      destruct (Msg.mockMode request); [cbn; auto|].
      destruct (truthy (backendUrl cfg)); [|cbn; auto].
      destruct (truthy (apiKey cfg)); [|cbn; auto].
      destruct (env_submit env) as [?|[] ? ? [?|?]]; cbn [fst snd];
        try done; intros [= <-]; right; (split_and!; [done|done|]);
        match goal with
        | |- ∃ job, getJobById (updateJob (saveJob _ ?r) ?r') _ = _ ∧ _ =>
            exists r'; split; [apply (save_then_update jobs r r' eq_refl)|done]
        end.
    + repeat case_decide; cbn [fst snd]; auto.
      unfold cancelJob. destruct (getJobById jobs (Msg.jobId request)); cbn; auto.
      done.
Qed.

(** ** Deleting a job *)

(** X17.  [deleteJob] removes every record stored under the id and keeps
    the others in their order: the id is no longer found, so that
    [getJobStatus] and [cancelJob] answer ['Job not found'] and change
    nothing; a lookup under another id gives what it gave before;
    deleting again, or deleting an id that is not stored, changes
    nothing. *)
Theorem deleteJob_removes (jobs : Store) (i : string) :
  getJobById (deleteJob jobs i) i = None
  ∧ (∀ i', i' ≠ i → getJobById (deleteJob jobs i) i' = getJobById jobs i')
  ∧ deleteJob jobs i `sublist_of` jobs
  ∧ deleteJob (deleteJob jobs i) i = deleteJob jobs i
  ∧ (i ∉ (Job.id <$> jobs) → deleteJob jobs i = jobs)
  ∧ getJobStatus (deleteJob jobs i) i = inl "Job not found"
  ∧ (∀ now, cancelJob (deleteJob jobs i) i now
            = (deleteJob jobs i, inl "Job not found")).
Proof.
  assert (Hgone : getJobById (deleteJob jobs i) i = None).
  { apply getJobById_None. unfold deleteJob.
    intros (j & Hid & [Hne _]%list_elem_of_filter)%list_elem_of_fmap.
    by apply Hne. }
  assert (Hid : ∀ l, i ∉ (Job.id <$> l) → deleteJob l i = l).
  { intros l. unfold deleteJob, Store. induction l as [|x l IH]; [done|].
    rewrite fmap_cons. intros [Hx Hl]%not_elem_of_cons. rewrite filter_cons.
    rewrite decide_True by congruence. by rewrite IH. }
  split_and!.
  - done.
  - intros i' Hne. clear Hgone Hid. unfold deleteJob, Store.
    induction jobs as [|x jobs IH]; [done|].
    rewrite filter_cons. destruct (decide (Job.id x = i)) as [Hx|Hx].
    + rewrite decide_False by (by intros Hn). rewrite getJobById_cons.
      rewrite decide_False by congruence. apply IH.
    + rewrite decide_True by done. rewrite !getJobById_cons.
      case_decide; [done | apply IH].
  - apply sublist_filter.
  - apply Hid. by apply getJobById_None.
  - apply Hid.
  - unfold getJobStatus. by rewrite Hgone.
  - intros now. unfold cancelJob. by rewrite Hgone.
Qed.

(** ** The list of the jobs page *)

(** Newest first: no job is listed after one created earlier than it. *)
Lemma insert_newest_perm a l : insert_newest a l ≡ₚ a :: l.
Proof.
  induction l as [|b l IH]; [done|]. cbn. case_decide; [|done].
  rewrite IH. apply Permutation_swap.
Qed.

Lemma sort_newest_perm l : sort_newest l ≡ₚ l.
Proof.
  induction l as [|a l IH]; [done|]. cbn.
  by rewrite insert_newest_perm, IH.
Qed.

Lemma insert_newest_sorted a l :
  StronglySorted (λ x y, (Job.createdAt y ≤ Job.createdAt x)%N) l →
  StronglySorted (λ x y, (Job.createdAt y ≤ Job.createdAt x)%N)
    (insert_newest a l).
Proof.
  induction 1 as [|b l Hl IH Hb]; cbn; [by repeat constructor|].
  case_decide as Hab.
  - constructor; [done|]. rewrite insert_newest_perm.
    constructor; [lia | done].
  - constructor; [by constructor|]. constructor; [lia|].
    eapply Forall_impl; [exact Hb|]. cbn. intros y Hy. lia.
Qed.

Lemma sort_newest_sorted l :
  StronglySorted (λ x y, (Job.createdAt y ≤ Job.createdAt x)%N)
    (sort_newest l).
Proof.
  induction l as [|a l IH]; [constructor|]. by apply insert_newest_sorted.
Qed.

(** Jobs created at the same instant keep their order. *)
Lemma insert_newest_stable t a l :
  filter (λ j, Job.createdAt j = t) (insert_newest a l)
  = filter (λ j, Job.createdAt j = t) (a :: l).
Proof.
  induction l as [|b l IH]; [done|]. cbn [insert_newest].
  case_decide as Hab; [|done].
  rewrite filter_cons, IH, !filter_cons.
  destruct (decide (Job.createdAt b = t)), (decide (Job.createdAt a = t));
    try done. lia.
Qed.

Lemma sort_newest_stable t l :
  filter (λ j, Job.createdAt j = t) (sort_newest l)
  = filter (λ j, Job.createdAt j = t) l.
Proof.
  induction l as [|a l IH]; [done|]. cbn [sort_newest foldr].
  rewrite insert_newest_stable, !filter_cons. fold (sort_newest l).
  by rewrite IH.
Qed.

(** X18.  [loadJobs] shows the empty state exactly when no stored job has
    the selected status (or, for ['all'], when the store is empty).
    Otherwise it renders the stored jobs with that status, each exactly
    once and no others, newest first, jobs created at the same instant in
    their stored order. *)
Theorem loadJobs_view (jobs : Store) (filterStatus : string) :
  let selected :=
    if decide (filterStatus = "all") then jobs
    else filter (λ job, Job.status job = filterStatus) jobs in
  (loadJobs jobs filterStatus = EmptyState ↔ selected = [])
  ∧ ∀ shown, loadJobs jobs filterStatus = Rendered shown →
      shown ≡ₚ selected
      ∧ StronglySorted (λ x y, (Job.createdAt y ≤ Job.createdAt x)%N) shown
      ∧ (∀ t, filter (λ j, Job.createdAt j = t) shown
              = filter (λ j, Job.createdAt j = t) selected)
      ∧ (∀ j, j ∈ shown →
              j ∈ jobs ∧ (filterStatus = "all" ∨ Job.status j = filterStatus)).
Proof.
  intros selected. unfold loadJobs. fold selected.
  pose proof (sort_newest_perm selected) as Hperm.
  split.
  - case_decide as Hlen.
    + split; [intros _|done]. apply length_zero_iff_nil in Hlen.
      rewrite Hlen in Hperm. by apply Permutation_nil_l in Hperm.
    + split; [done|]. intros E. rewrite E in Hlen. by destruct Hlen.
  - intros shown. case_decide; [done|]. intros [= <-].
    split_and!;
      [done | apply sort_newest_sorted | intros t; apply sort_newest_stable |].
    intros j Hj. rewrite Hperm in Hj. subst selected.
    case_decide; [by auto|].
    apply list_elem_of_filter in Hj as [??]. auto.
Qed.

(** ** Relative dates *)

(** X19.  [formatDate] shows ['Just now'] for a date less than a minute
    old, and also for a date in the future; whole minutes from 1 to 59,
    rounded down, for a date less than an hour old; whole hours from 1 to
    23, rounded down, for a date less than a day old; and the absolute
    date from one day on. *)
Theorem formatDate_ranges (locale : Time → string) (date now : Time) :
  let diff := (Z.of_N now - Z.of_N date)%Z in
  ((diff < 60000)%Z → formatDate locale date now = "Just now")
  ∧ ((60000 ≤ diff < 3600000)%Z →
       ∃ m : N, (1 ≤ m ≤ 59)%N
         ∧ (Z.of_N m * 60000 ≤ diff < (Z.of_N m + 1) * 60000)%Z
         ∧ formatDate locale date now = dec m +:+ "m ago")
  ∧ ((3600000 ≤ diff < 86400000)%Z →
       ∃ h : N, (1 ≤ h ≤ 23)%N
         ∧ (Z.of_N h * 3600000 ≤ diff < (Z.of_N h + 1) * 3600000)%Z
         ∧ formatDate locale date now = dec h +:+ "h ago")
  ∧ ((86400000 ≤ diff)%Z → formatDate locale date now = locale date).
Proof.
  intros diff. unfold formatDate. fold diff. split_and!.
  - intros Hd. by rewrite (proj2 (Z.ltb_lt _ _) Hd).
  - intros [Hlo Hhi].
    rewrite (proj2 (Z.ltb_ge _ _) Hlo), (proj2 (Z.ltb_lt _ _) Hhi).
    exists (Z.to_N (diff / 60000)).
    pose proof (Z.div_mod diff 60000 ltac:(lia)).
    pose proof (Z.mod_pos_bound diff 60000 ltac:(lia)).
    split_and!; [lia.. | done].
  - intros [Hlo Hhi].
    assert (H1 : (60000 ≤ diff)%Z) by lia.
    rewrite (proj2 (Z.ltb_ge _ _) H1).
    rewrite (proj2 (Z.ltb_ge _ _) Hlo), (proj2 (Z.ltb_lt _ _) Hhi).
    exists (Z.to_N (diff / 3600000)).
    pose proof (Z.div_mod diff 3600000 ltac:(lia)).
    pose proof (Z.mod_pos_bound diff 3600000 ltac:(lia)).
    split_and!; [lia.. | done].
  - intros Hlo.
    assert (H1 : (60000 ≤ diff)%Z) by lia.
    assert (H2 : (3600000 ≤ diff)%Z) by lia.
    rewrite (proj2 (Z.ltb_ge _ _) H1), (proj2 (Z.ltb_ge _ _) H2).
    by rewrite (proj2 (Z.ltb_ge _ _) Hlo).
Qed.

Lemma formatDate_ranges_witness :
  formatDate (λ _, "3/11/2026 10:00:00") 5000 1000 = "Just now"
  ∧ (∃ m : N, (1 ≤ m ≤ 59)%N
       ∧ formatDate (λ _, "3/11/2026 10:00:00") 1000 3599999
         = dec m +:+ "m ago")
  ∧ formatDate (λ _, "3/11/2026 10:00:00") 0 86400000 = "3/11/2026 10:00:00".
Proof.
  split_and!.
  - apply (formatDate_ranges (λ _, "3/11/2026 10:00:00") 5000 1000). lia.
  - destruct (proj1 (proj2 (formatDate_ranges (λ _, "3/11/2026 10:00:00")
                              1000 3599999)))
      as (m & Hm & _ & Hf); [lia|]. by exists m.
  - apply (formatDate_ranges (λ _, "3/11/2026 10:00:00") 0 86400000). lia.
Defined.

(** ** The popup's polling *)

Lemma popup_sent_app effs1 effs2 :
  Popup.sent (effs1 ++ effs2) = Popup.sent effs1 + Popup.sent effs2.
Proof.
  induction effs1 as [|[] effs1 IH]; cbn; by rewrite ?IH.
Qed.

(** The body of [poll] sends nothing itself, and sets the timer again only
    below the limit, and only for a job that is ['running'] or
    ['pending']. *)
Lemma popup_poll_body attempts response :
  Popup.sent (Popup.poll_body attempts response) = 0
  ∧ (Popup.again (Popup.poll_body attempts response) = true →
     attempts < Popup.maxAttempts
     ∧ ∃ st prog res err,
         response = Success (JobStatus st prog res err) ∧ active st = true).
Proof.
  unfold Popup.poll_body.
  destruct response as [[| |st prog res err| |]|m]; try done.
  destruct (decide (st = "done")); [done|].
  destruct (decide (st = "error")); [done|].
  destruct (bool_decide (st = "running") || bool_decide (st = "pending"))
    eqn:Ha; [|done].
  destruct (decide (attempts < Popup.maxAttempts)); [|done].
  split; [done|]. intros _. split; [done|].
  exists st, prog, res, err. split; [done|]. unfold active.
  by rewrite orb_comm.
Qed.

Lemma popup_poll_active attempts st prog res err :
  active st = true → attempts < Popup.maxAttempts →
  Popup.poll_body attempts (Success (JobStatus st prog res err))
  = [Popup.ShowStatus ("⏳ Processing... (" +:+ st +:+ ")") "info";
     Popup.PollAgain 2000].
Proof.
  intros Ha Hlt. unfold Popup.poll_body.
  pose proof (active_not_terminal _ Ha) as Hnt. unfold terminal in Hnt.
  apply orb_false_iff in Hnt as [Hd He].
  apply bool_decide_eq_false in Hd, He.
  rewrite !decide_False by done. unfold active in Ha.
  rewrite orb_comm in Ha. rewrite Ha. by rewrite decide_True.
Qed.

Lemma popup_poll_bound n : ∀ attempts jobId stores,
  attempts < Popup.maxAttempts →
  (Popup.sent (Popup.pollJobStatus n attempts jobId stores)
   ≤ Popup.maxAttempts - attempts)%nat.
Proof.
  induction n as [|n IH]; intros attempts jobId stores Hlt; [cbn; lia|].
  cbn [Popup.pollJobStatus].
  set (response := match getJobStatus _ _ with
                   | inr reply => Success reply
                   | inl message => Failure message
                   end).
  destruct (popup_poll_body (S attempts) response) as [Hsent Hagain].
  cbn [Popup.sent]. rewrite popup_sent_app, Hsent.
  destruct (Popup.again _) eqn:Ha; [|cbn [Popup.sent]; lia].
  destruct (Hagain eq_refl) as [Hlt' _].
  pose proof (IH (S attempts) jobId stores Hlt'). lia.
Qed.

Lemma popup_poll_timeout attempts st prog res err :
  active st = true → ¬ attempts < Popup.maxAttempts →
  Popup.poll_body attempts (Success (JobStatus st prog res err))
  = [Popup.ShowStatus ("⏳ Processing... (" +:+ st +:+ ")") "info";
     Popup.ShowStatus "⏱ Timeout waiting for results. Check Jobs page."
       "error"].
Proof.
  intros Ha Hlt. unfold Popup.poll_body.
  pose proof (active_not_terminal _ Ha) as Hnt. unfold terminal in Hnt.
  apply orb_false_iff in Hnt as [Hd He].
  apply bool_decide_eq_false in Hd, He.
  rewrite !decide_False by done. unfold active in Ha.
  rewrite orb_comm in Ha. by rewrite Ha.
Qed.

Lemma popup_poll_all_active n : ∀ attempts jobId stores,
  attempts < Popup.maxAttempts →
  (∀ k, (attempts < k ≤ Popup.maxAttempts)%nat →
        ∃ j, getJobById (stores k) jobId = Some j
             ∧ active (Job.status j) = true) →
  (Popup.maxAttempts - attempts ≤ n)%nat →
  Popup.sent (Popup.pollJobStatus n attempts jobId stores)
  = Popup.maxAttempts - attempts
  ∧ last (Popup.pollJobStatus n attempts jobId stores)
    = Some (Popup.ShowStatus
              "⏱ Timeout waiting for results. Check Jobs page." "error").
Proof.
  induction n as [|n IH]; intros attempts jobId stores Hlt Hact Hn; [lia|].
  cbn [Popup.pollJobStatus].
  destruct (Hact (S attempts)) as (j & Hj & Ha); [lia|].
  unfold getJobStatus. rewrite Hj.
  destruct (decide (S attempts < Popup.maxAttempts)) as [Hlt'|Hge].
  - rewrite popup_poll_active by done. cbn [Popup.again existsb orb].
    destruct (IH (S attempts) jobId stores Hlt') as [Hsent Hlast].
    { intros k Hk. apply Hact. lia. }
    { lia. }
    cbn [Popup.sent app]. rewrite Hsent. split; [lia|].
    rewrite !last_cons. by rewrite Hlast.
  - rewrite popup_poll_timeout by done.
    cbn [Popup.again existsb orb app Popup.sent]. split; [lia | done].
Qed.

(** X20.  The popup asks the background script for the status of a job at
    most 20 times, whatever it is answered.  It stops at the first answer
    that is not ['running'] or ['pending'] (a terminal status, an unknown
    one, or a failure such as a deleted job); while the job stays
    ['running'] or ['pending'] it asks exactly 20 times and then shows
    its timeout message, although the background script goes on
    polling. *)
Theorem popup_poll_limit (n : nat) (jobId : string) (stores : nat → Store) :
  (Popup.sent (Popup.pollJobStatus n 0 jobId stores) ≤ Popup.maxAttempts)%nat
  ∧ ((∀ k, (1 ≤ k ≤ Popup.maxAttempts)%nat →
           ∃ j, getJobById (stores k) jobId = Some j
                ∧ active (Job.status j) = true) →
     (Popup.maxAttempts ≤ n)%nat →
     Popup.sent (Popup.pollJobStatus n 0 jobId stores) = Popup.maxAttempts
     ∧ last (Popup.pollJobStatus n 0 jobId stores)
       = Some (Popup.ShowStatus
                 "⏱ Timeout waiting for results. Check Jobs page." "error"))
  ∧ ((getJobById (stores 1) jobId = None
      ∨ ∃ j, getJobById (stores 1) jobId = Some j
             ∧ active (Job.status j) = false) →
     (Popup.sent (Popup.pollJobStatus n 0 jobId stores) ≤ 1)%nat).
Proof.
  split_and!.
  - pose proof (popup_poll_bound n 0 jobId stores).
    unfold Popup.maxAttempts in *. lia.
  - intros Hact Hn.
    destruct (popup_poll_all_active n 0 jobId stores) as [Hsent Hlast].
    + unfold Popup.maxAttempts. lia.
    + intros k Hk. apply Hact. lia.
    + lia.
    + split; [lia | done].
  - intros Hfirst. destruct n as [|n]; [cbn; lia|].
    cbn [Popup.pollJobStatus].
    set (response := match getJobStatus _ _ with
                     | inr reply => Success reply
                     | inl message => Failure message
                     end).
    destruct (popup_poll_body 1 response) as [Hsent Hagain].
    destruct (Popup.again _) eqn:Ha.
    + destruct (Hagain eq_refl) as (_ & st & prog & res & err & Hr & Hst).
      subst response. unfold getJobStatus in Hr.
      destruct Hfirst as [Hno|(j & Hj & Hna)].
      * by rewrite Hno in Hr.
      * rewrite Hj in Hr. injection Hr as <- _ _ _. congruence.
    + cbn [Popup.sent]. rewrite popup_sent_app, Hsent. cbn. lia.
Qed.

Lemma popup_poll_limit_witness :
  Popup.sent (Popup.pollJobStatus 25 0 "job-2000-xyz" (λ _, [job_b])) = 20
  ∧ (Popup.sent (Popup.pollJobStatus 25 0 "job-1000-abc" (λ _, [job_a_done]))
     ≤ 1)%nat.
Proof.
  split.
  - apply (popup_poll_limit 25 "job-2000-xyz" (λ _, [job_b])).
    + intros k _. exists job_b. by split.
    + unfold Popup.maxAttempts. lia.
  - apply (popup_poll_limit 25 "job-1000-abc" (λ _, [job_a_done])).
    right. exists job_a_done. by split.
Defined.

(** ** More on reachable worlds *)

(** X21.  In every reachable world, with polls in flight and
    cancellations and deletions interleaved, a stored record has an error
    message exactly when its status is ['error']; in particular a record
    that is ['done'], ['pending'] or ['running'] has none. *)
Theorem stored_error_iff_status (w : World) (j : JobRecord) :
  reachable w → j ∈ w_jobs w →
  (Job.status j = "error" ↔ is_Some (Job.error j))
  ∧ (Job.status j ≠ "error" → Job.error j = None).
Proof.
  intros [Hall _]%reachable_error_ok Hin.
  rewrite Forall_forall in Hall. destruct (Hall j Hin) as [He Hn].
  split; [split; [done|] | done].
  intros [m Hm]. destruct (decide (Job.status j = "error")) as [|Hne]; [done|].
  rewrite (Hn Hne) in Hm. done.
Qed.

Lemma stored_error_iff_status_witness :
  Job.error job_a_stuck = None.
Proof.
  apply (stored_error_iff_status (mkWorld [job_a_stuck] [] []) job_a_stuck).
  - by exists lost_result_run.
  - cbn. left.
  - done.
Defined.

(** X22.  A poll that is told ['pending'] or ['running'] sets exactly one
    timer, with the capped delay of its attempt; that delay is at least
    2000 ms and at most 15187.5 ms, never decreases from one attempt to
    the next, and is the same from attempt 5 on. *)
Theorem poll_success_delay_capped (jobs : Store) (c : PollCall)
    (j : JobRecord) (now : Time) (st : N) (txt : string) (sd : StatusData)
    (rr : Fetch Obj) :
  pc_attempt c < CONFIG.POLL_MAX_ATTEMPTS →
  getJobById jobs (pc_jobId c) = Some j →
  terminal (Job.status j) = false →
  active (st_status sd) = true →
  delays (snd (pollJobStatus jobs c now (Responded true st txt (inr sd)) rr))
  = [next_delay (pc_attempt c)]
  ∧ (2000 <= next_delay (pc_attempt c) <= 15187.5)%Q
  ∧ (next_delay (pc_attempt c) <= next_delay (S (pc_attempt c)))%Q
  ∧ (5 ≤ pc_attempt c → next_delay (pc_attempt c) = next_delay 5)%nat.
Proof.
  intros Hlt Hj Ht Ha.
  destruct (poll_active_delay jobs c j now st txt sd rr Hlt Hj Ht Ha)
    as [_ Heffs].
  rewrite Heffs. split_and!.
  - done.
  - assert (H0 : (next_delay 0 == 2000)%Q) by reflexivity.
    rewrite <- H0. apply next_delay_mono. lia.
  - apply next_delay_bounded.
  - apply next_delay_mono. lia.
  - intros H5. unfold next_delay. by rewrite Nat.min_r by done.
Qed.

Lemma poll_success_delay_capped_witness :
  delays (snd (pollJobStatus [job_a] (poll_a 9) 9000 (reports "running")
                 server_error))
  = [next_delay 9]
  ∧ next_delay 9 = next_delay 5
  ∧ (next_delay 5 == 15187.5)%Q.
Proof.
  destruct (poll_success_delay_capped [job_a] (poll_a 9) job_a 9000 200 "OK"
              (mkStatusData "running" None None) server_error)
    as (Hd & _ & _ & H5).
  - unfold CONFIG.POLL_MAX_ATTEMPTS. simpl. lia.
  - reflexivity.
  - reflexivity.
  - reflexivity.
  - split_and!; [exact Hd | apply H5; simpl; lia | reflexivity].
Defined.

(** ** A cancellation with nothing in flight *)

Lemma getJobById_deleteJob_ne jobs i i' :
  i' ≠ i → getJobById (deleteJob jobs i') i = getJobById jobs i.
Proof.
  intros Hne. unfold deleteJob, Store.
  induction jobs as [|x jobs IH]; [done|].
  rewrite filter_cons. destruct (decide (Job.id x ≠ i')) as [Hx|Hx].
  - rewrite !getJobById_cons. case_decide; [done | apply IH].
  - apply dec_stable in Hx. rewrite getJobById_cons.
    rewrite decide_False by congruence. apply IH.
Qed.

(** The first half of a poll of another job leaves the record of job [i]
    as it is, and the job object it holds is not that of job [i]. *)
Lemma poll_begin_other jobs c now i :
  pc_jobId c ≠ i →
  match poll_begin jobs c now with
  | Returned jobs' => getJobById jobs' i = getJobById jobs i
  | InFlight job _ => Job.id job ≠ i
  end.
Proof.
  intros Hne. unfold poll_begin.
  case_bool_decide; [by apply poll_timeout_other|].
  destruct (getJobById jobs (pc_jobId c)) as [j|] eqn:Hj; [|done].
  destruct (terminal _); [done|]. by apply getJobById_Some in Hj as [-> _].
Qed.

(** One step that is not a user action on job [i] keeps a terminal record
    of job [i] as it is, and leaves nothing of the job in flight, if
    nothing was. *)
Lemma step_keeps_terminal s i j e :
  getJobById (s_jobs s) i = Some j →
  terminal (Job.status j) = true →
  settled i s →
  elsewhere i e = true →
  getJobById (s_jobs (step s e)) i = Some j ∧ settled i (step s e).
Proof.
  intros Hj Ht [Hq Hp] He.
  assert (Hlift : ∀ op, poll_step op = true →
            getJobById (s_jobs (on_world s (exec (world s) op))) i = Some j
            ∧ settled i (on_world s (exec (world s) op))).
  { intros op Hop.
    destruct (interleaved_polls_keep_terminal [op] (world s) i j Hj Ht Hq)
      as [Hj' Hq']; [cbn; by rewrite Hop|].
    split; [exact Hj' | split; [exact Hq' | exact Hp]]. }
  destruct e as [cfg payload mockMode now rnd|k now' resp|i'|i' now|k now
                |k now sr rr|i'|]; cbn [step elsewhere] in *;
    try (by apply Hlift).
  - apply bool_decide_eq_true in He.
    destruct (submit_begin _ _ _ _ _ _) as [out|jobs' p] eqn:Hb;
      [by split|].
    apply submit_begin_Awaiting in Hb as (_ & Hjob & _ & _ & ->).
    split; [by apply getJobById_saveJob_old|]. split; [exact Hq|].
    cbn [s_posts]. apply Forall_app. split; [done|].
    apply Forall_singleton. by rewrite Hjob.
  - destruct (s_posts s !! k) as [p|] eqn:Hk; [|by split].
    pose proof (Forall_lookup_1 _ _ _ _ Hp Hk) as Hne. cbn beta in Hne.
    pose proof (submit_resume_other (s_jobs s) p now' resp i Hne) as Hres.
    pose proof (submit_resume_scheduled (s_jobs s) p now' resp) as Hs.
    destruct (submit_resume _ _ _ _) as [[jobs effs] out].
    cbn [fst snd] in Hres, Hs.
    pose proof (Forall_delete _ _ k Hp) as Hp'.
    destruct Hs as [->| ->].
    + split; [cbn [s_jobs]; by rewrite Hres | by split].
    + unfold start_poll. cbn [s_jobs s_posts s_timers s_inflight].
      pose proof (poll_begin_other jobs
                    (mkPollCall (Job.id (ps_job p)) (ps_backendUrl p)
                       (ps_apiKey p) 0) now' i Hne) as Hb.
      destruct (poll_begin _ _ _) as [jobs'|job bid].
      * split; [cbn [s_jobs]; by rewrite Hb, Hres | by split].
      * split; [cbn [s_jobs]; by rewrite Hres|]. split; [|done].
        unfold quiet in *. cbn [world w_inflight s_inflight] in *.
        apply Forall_app. split; [done|]. by apply Forall_singleton.
  - apply bool_decide_eq_true in He. split; [|by split].
    cbn [on_world world exec s_jobs w_jobs]. by rewrite cancelJob_other.
  - apply bool_decide_eq_true in He. split; [|by split].
    cbn [on_world world exec s_jobs w_jobs].
    by rewrite getJobById_deleteJob_ne.
Qed.

Lemma steps_keep_terminal evs : ∀ s i j,
  getJobById (s_jobs s) i = Some j →
  terminal (Job.status j) = true →
  settled i s →
  forallb (elsewhere i) evs = true →
  getJobById (s_jobs (steps evs s)) i = Some j ∧ settled i (steps evs s).
Proof.
  unfold steps.
  induction evs as [|e evs IH]; intros s i j Hj Ht Hs Hevs; [done|].
  cbn in Hevs. apply andb_true_iff in Hevs as [He Hevs].
  destruct (step_keeps_terminal s i j e Hj Ht Hs He) as [Hj' Hs'].
  cbn [foldl]. by apply IH.
Qed.

(** X23.  When nothing of a job is waiting for a response at the moment
    the job is cancelled (no poll for its status response, no submission
    for the response to its POST), the cancellation is final, with the
    polls and the submissions of all jobs interleaved at their requests:
    whatever polls start, whatever responses arrive, whatever is submitted,
    cancelled or deleted under other ids afterwards, the record stays
    ['error'] with ['Cancelled by user'], and no poll of the job goes in
    flight again.  The read and the write of [cancelJob] count as one
    step, like the storage calls of every operation between two
    requests. *)
Theorem cancel_is_final_when_settled (s : System) (i : string)
    (j : JobRecord) (now : Time) (evs : list Event) :
  getJobById (s_jobs s) i = Some j →
  settled i s →
  forallb (elsewhere i) evs = true →
  getJobById (s_jobs (steps evs (step s (EvCancel i now)))) i
  = Some (cancelled now j)
  ∧ Job.status (cancelled now j) = "error"
  ∧ Job.error (cancelled now j) = Some "Cancelled by user"
  ∧ settled i (steps evs (step s (EvCancel i now))).
Proof.
  intros Hj Hs Hevs.
  destruct (steps_keep_terminal evs (step s (EvCancel i now)) i
              (cancelled now j)) as [Hget Hs']; try done.
  cbn [step on_world world exec s_jobs w_jobs].
  by destruct (cancelJob_found _ _ _ now Hj) as [-> ?].
Qed.

(** [job_a] cancelled between its first and its second poll; afterwards
    the timer of the second poll fires, and another job is submitted,
    accepted and completed. *)
Lemma cancel_is_final_when_settled_witness :
  Job.status
    <$> getJobById
          (s_jobs
             (steps [EvWake 0 5000;
                     EvSubmit sample_settings sample_payload false 6000 "xyz";
                     EvPosted 0 6500 accepted_a;
                     EvRespond 0 7000 (reports "done")
                       (ok_response (mock_result 0))]
                (step (steps between_polls_run idle)
                   (EvCancel "job-1000-abc" 3500))))
          "job-1000-abc"
  = Some "error".
Proof.
  destruct (cancel_is_final_when_settled (steps between_polls_run idle)
              "job-1000-abc" job_a_running 3500
              [EvWake 0 5000;
               EvSubmit sample_settings sample_payload false 6000 "xyz";
               EvPosted 0 6500 accepted_a;
               EvRespond 0 7000 (reports "done") (ok_response (mock_result 0))]
              eq_refl) as (Hget & Hst & _).
  - split; constructor.
  - reflexivity.
  - by rewrite Hget.
Defined.

(** ** Further instances *)

(** A mock submission and a rejected one, next to [job_b]. *)
Lemma submitJob_only_appends_witness :
  getJobById
    (submitJob sample_settings [job_b] sample_payload false 1000 "abc" 1001
       server_error).1.1 "job-2000-xyz"
  = Some job_b.
Proof.
  rewrite (proj1 (submitJob_only_appends sample_settings [job_b]
                    sample_payload false 1000 "abc" 1001 server_error)).
  - reflexivity.
  - compute_done.
Defined.

(** Two submissions in the same millisecond with different suffixes. *)
Lemma generateJobId_inj_witness :
  generateJobId 1000 "abc" ≠ generateJobId 1000 "abd".
Proof.
  intros E.
  apply (proj1 (generateJobId_inj 1000 1000 "abc" "abd")) in E as [_ E].
  discriminate E.
Defined.

(** A message with a misspelt action. *)
Lemma onMessage_answers_witness :
  onMessage sample_settings [job_b]
    (Msg.mk "cancelJobs" [] false "job-2000-xyz")
    (mkEnv 1000 "abc" 1001 server_error)
  = ([job_b], [], Failure "Unknown action: cancelJobs").
Proof.
  destruct (proj1 (onMessage_answers sample_settings [job_b]
                     (Msg.mk "cancelJobs" [] false "job-2000-xyz")
                     (mkEnv 1000 "abc" 1001 server_error)))
    as (Hr & Hj & He).
  - compute_done.
  - destruct (onMessage _ _ _ _) as [[jobs' effs] response].
    cbn [fst snd] in *. by rewrite Hr, Hj, He.
Defined.

(** [job_a] deleted from a store that also holds [job_b]. *)
Lemma deleteJob_removes_witness :
  getJobById (deleteJob [job_b; job_a] "job-1000-abc") "job-2000-xyz"
  = Some job_b
  ∧ getJobStatus (deleteJob [job_b; job_a] "job-1000-abc") "job-1000-abc"
    = inl "Job not found".
Proof.
  split.
  - rewrite (proj1 (proj2 (deleteJob_removes [job_b; job_a] "job-1000-abc")))
      by compute_done.
    reflexivity.
  - apply (deleteJob_removes [job_b; job_a] "job-1000-abc").
Defined.

(** The page filtered on ['running'], with [job_a] and [job_b] stored. *)
Lemma loadJobs_view_witness :
  loadJobs [job_a; job_b] "running" = Rendered [job_b]
  ∧ loadJobs [job_a; job_b] "all" = Rendered [job_b; job_a]
  ∧ loadJobs [job_a; job_b] "done" = EmptyState.
Proof.
  split_and!; [reflexivity | reflexivity |].
  apply (proj1 (loadJobs_view [job_a; job_b] "done")). reflexivity.
Defined.
